(** * gosette: the HTTP test server, its response queue, record store and
      multi-target response writer

    A shallow embedding of [httptestserver.go].  Go values that are shared
    and mutated through pointers (response recorders, mocked writers) live
    in an explicit store; the handler and the writer methods are state
    transformers over that store.  The parts of the Go standard library the
    handler calls ([net/url], [net/http], [io], [httptest]) are modelled
    next to the code that uses them. *)

From Stdlib Require Import ZArith NArith Strings.String Strings.Ascii Strings.Byte List Lia Bool.
From stdpp Require Import base option list gmap strings.
Import ListNotations.

Local Open Scope Z_scope.

(** ** Go errors *)

Module GoError.

(** [errors.New] and [fmt.Errorf] without [%w] give an [errorString];
    [fmt.Errorf] with [%w] gives a [wrapError] that keeps the formatted
    text and the wrapped error. *)
Inductive error : Type :=
| errorString (msg : string)
| wrapError (msg : string) (err : error).

(** [err.Error()] *)
Definition Error (e : error) : string :=
  match e with
  | errorString msg => msg
  | wrapError msg _ => msg
  end.

(** [errors.Unwrap(err)] *)
Definition Unwrap (e : error) : option error :=
  match e with
  | errorString _ => None
  | wrapError _ err => Some err
  end.

(** [fmt.Errorf(prefix + "%w", err)] *)
Definition Errorf_w (prefix : string) (err : error) : error :=
  wrapError (prefix +:+ Error err) err.

End GoError.
Export GoError.

(** [[]byte] *)
Abbreviation bytes := (list byte).

(** [[]byte(s)] and [string(b)] *)
Definition bytes_of_string (s : string) : bytes := String.list_byte_of_string s.
Definition string_of_bytes (b : bytes) : string := String.string_of_list_byte b.

(** ** net/textproto and net/http headers *)

Module Header.

(** [http.Header] is [map[string][]string]. *)
Abbreviation t := (gmap string (list string)).

Definition code (c : ascii) : nat := nat_of_ascii c.

Definition is_lower (c : ascii) : bool := (97 <=? code c)%nat && (code c <=? 122)%nat.
Definition is_upper (c : ascii) : bool := (65 <=? code c)%nat && (code c <=? 90)%nat.
Definition is_digit (c : ascii) : bool := (48 <=? code c)%nat && (code c <=? 57)%nat.

(** [textproto.validHeaderFieldByte]: the token characters of RFC 7230. *)
Definition validHeaderFieldByte (c : ascii) : bool :=
  is_lower c || is_upper c || is_digit c
  || existsb (Nat.eqb (code c))
       [33; 35; 36; 37; 38; 39; 42; 43; 45; 46; 94; 95; 96; 124; 126]%nat.

Definition to_upper (c : ascii) : ascii :=
  if is_lower c then ascii_of_nat (code c - 32) else c.
Definition to_lower (c : ascii) : ascii :=
  if is_upper c then ascii_of_nat (code c + 32) else c.

(** The rewriting loop of [canonicalMIMEHeaderKey]: upper case at the
    start and after each dash, lower case elsewhere. *)
Fixpoint canonical_loop (upper : bool) (s : string) : string :=
  match s with
  | EmptyString => EmptyString
  | String c s' =>
      let c' := if upper then to_upper c else to_lower c in
      String c' (canonical_loop (Ascii.eqb c' "-"%char) s')
  end.

Fixpoint all_chars (p : ascii -> bool) (s : string) : bool :=
  match s with
  | EmptyString => true
  | String c s' => p c && all_chars p s'
  end.

(** [textproto.CanonicalMIMEHeaderKey]: a key with a byte that is not a
    token character is returned unchanged. *)
Definition CanonicalMIMEHeaderKey (s : string) : string :=
  if all_chars validHeaderFieldByte s then canonical_loop true s else s.

(** [h.Get(key)]: the first value of the canonical key, or the empty
    string. *)
Definition Get (h : t) (key : string) : string :=
  match h !! CanonicalMIMEHeaderKey key with
  | Some (v :: _) => v
  | _ => EmptyString
  end.

(** [h.Set(key, value)] *)
Definition Set_ (h : t) (key value : string) : t :=
  <[CanonicalMIMEHeaderKey key := [value]]> h.

(** [h.Add(key, value)] *)
Definition Add (h : t) (key value : string) : t :=
  let k := CanonicalMIMEHeaderKey key in
  <[k := default [] (h !! k) ++ [value]]> h.

End Header.

(** ** net/url: query strings and form values *)

Module URL.

(** [url.Values] is [map[string][]string]. *)
Abbreviation Values := (gmap string (list string)).

(** [strings.Cut(s, sep)] for a one-byte separator: the text before the
    first separator and the text after it; without a separator, the whole
    text and the empty string. *)
Fixpoint Cut (sep : ascii) (s : string) : string * string :=
  match s with
  | EmptyString => (EmptyString, EmptyString)
  | String c s' =>
      if Ascii.eqb c sep then (EmptyString, s')
      else let '(before, after) := Cut sep s' in (String c before, after)
  end.

(** [strings.Contains(s, ";")] *)
Fixpoint Contains (sep : ascii) (s : string) : bool :=
  match s with
  | EmptyString => false
  | String c s' => Ascii.eqb c sep || Contains sep s'
  end.

Definition ishex (c : ascii) : bool :=
  Header.is_digit c
  || ((97 <=? Header.code c)%nat && (Header.code c <=? 102)%nat)
  || ((65 <=? Header.code c)%nat && (Header.code c <=? 70)%nat).

Definition unhex (c : ascii) : nat :=
  if Header.is_digit c then Header.code c - 48
  else if Header.is_lower c then Header.code c - 97 + 10
  else Header.code c - 65 + 10.

Definition dquote : string := String "034"%char EmptyString.

(** [strconv.Quote] on text without bytes that need escaping. *)
Definition Quote (s : string) : string := dquote +:+ s +:+ dquote.

(** [url.EscapeError(s).Error()] *)
Definition EscapeError (s : string) : error :=
  errorString ("invalid URL escape " +:+ Quote s).

(** [url.QueryUnescape]: [%XX] becomes the byte, [+] a space; a [%] not
    followed by two hexadecimal digits is an [EscapeError] that quotes at
    most three bytes from the [%] on. *)
Fixpoint QueryUnescape (s : string) : string + error :=
  match s with
  | EmptyString => inl EmptyString
  | String c s' =>
      if Ascii.eqb c "%"%char then
        match s' with
        | String h1 (String h2 s'') =>
            if ishex h1 && ishex h2 then
              match QueryUnescape s'' with
              | inl t => inl (String (ascii_of_nat (unhex h1 * 16 + unhex h2)) t)
              | inr e => inr e
              end
            else inr (EscapeError (String c (String h1 (String h2 EmptyString))))
        | _ => inr (EscapeError s)
        end
      else
        match QueryUnescape s' with
        | inl t => inl (String (if Ascii.eqb c "+"%char then " "%char else c) t)
        | inr e => inr e
        end
  end.

(** [url.shouldEscape(c, encodeQueryComponent)] *)
Definition shouldEscape (c : ascii) : bool :=
  negb (Header.is_lower c || Header.is_upper c || Header.is_digit c
        || existsb (Nat.eqb (Header.code c)) [45; 95; 46; 126]%nat).

Definition upperhex (n : nat) : ascii :=
  if (n <? 10)%nat then ascii_of_nat (48 + n) else ascii_of_nat (65 + (n - 10)).

(** [url.QueryEscape] *)
Fixpoint QueryEscape (s : string) : string :=
  match s with
  | EmptyString => EmptyString
  | String c s' =>
      if Ascii.eqb c " "%char then String "+"%char (QueryEscape s')
      else if shouldEscape c then
        String "%"%char
          (String (upperhex (Header.code c / 16))
             (String (upperhex (Header.code c mod 16)) (QueryEscape s')))
      else String c (QueryEscape s')
  end.

(** One round of the loop of [url.parseQuery] on the pair [key] (the text
    up to the next [&]). *)
Definition parseQuery_pair (key : string) (m : Values) (err : option error)
  : Values * option error :=
  if Contains ";"%char key then
    (m, Some (errorString "invalid semicolon separator in query"))
  else if String.eqb key EmptyString then (m, err)
  else
    let '(k, v) := Cut "="%char key in
    match QueryUnescape k with
    | inr err1 => (m, if err is Some _ then err else Some err1)
    | inl k' =>
        match QueryUnescape v with
        | inr err1 => (m, if err is Some _ then err else Some err1)
        | inl v' => (<[k' := default [] (m !! k') ++ [v']]> m, err)
        end
    end.

(** [strings.Split(query, "&")], the pairs [parseQuery] visits in order. *)
Fixpoint pairs_of (cur : string) (s : string) : list string :=
  match s with
  | EmptyString => [cur]
  | String c s' =>
      if Ascii.eqb c "&"%char then cur :: pairs_of EmptyString s'
      else pairs_of (cur +:+ String c EmptyString) s'
  end.

(** [url.ParseQuery]: the values parsed and the first error met (a
    semicolon error replaces an earlier one, as in the library). *)
Definition ParseQuery (query : string) : Values * option error :=
  fold_left (fun acc key => parseQuery_pair key acc.1 acc.2)
            (pairs_of EmptyString query) (∅, None).

(** Insertion of a key in a list sorted by [String.compare]. *)
Fixpoint insert_sorted (k : string) (ks : list string) : list string :=
  match ks with
  | [] => [k]
  | k' :: ks' =>
      match String.compare k k' with
      | Gt => k' :: insert_sorted k ks'
      | _ => k :: ks
      end
  end.

(** [slices.Sort(keys)] *)
Definition sort_keys (ks : list string) : list string :=
  fold_right insert_sorted [] ks.

(** The [key=value] pairs of one key, each preceded by [&] unless the
    buffer is still empty. *)
Fixpoint Encode_key (k : string) (vs : list string) (buf : string) : string :=
  match vs with
  | [] => buf
  | v :: vs' =>
      let buf := if String.eqb buf EmptyString then buf
                 else buf +:+ "&" in
      Encode_key k vs' (buf +:+ QueryEscape k +:+ "=" +:+ QueryEscape v)
  end.

(** [v.Encode()]: the keys sorted, every value of a key in its order. *)
Definition Encode (v : Values) : string :=
  fold_left (fun buf k => Encode_key k (default [] (v !! k)) buf)
            (sort_keys (map fst (map_to_list v))) EmptyString.

End URL.

(** ** Outcomes of Go code: a normal return or a run-time panic *)

Inductive Res (A : Type) : Type :=
| Ok (a : A)
| Panic (msg : string).
Arguments Ok {A} a.
Arguments Panic {A} msg.

(** ** io: request bodies *)

(** An [io.ReadCloser] as the handler meets it.  [NilReader] is the nil
    interface value.  [Source pending fault] is a body supplied by the
    caller: its reads deliver [pending] and then report end of file
    ([fault = None]) or the error [fault], on every later read as well.
    [NopCloserTee src buf] is [io.NopCloser(io.TeeReader(src, buf))]: it
    is a non-nil value even over a nil [src], and every byte read through
    it is appended to [buf]. *)
Inductive ReadCloser : Type :=
| NilReader
| Source (pending : bytes) (fault : option error)
| NopCloserTee (src : ReadCloser) (buf : bytes).

(** The first [n] elements of a list and the rest. *)
Fixpoint splitN {A : Type} (n : N) (l : list A) : list A * list A :=
  match l with
  | [] => ([], [])
  | x :: l' =>
      if N.eqb n 0 then ([], l)
      else let '(a, b) := splitN (N.pred n) l' in (x :: a, b)
  end.

(** [io.ReadAll(rc)] for [limit = None] and
    [io.ReadAll(io.LimitReader(rc, n))] for [limit = Some n] (with
    [0 < n]): the bytes read, the error ([None] at end of file or when the
    limit stops the reading), and the reader afterwards.  Reading through
    a nil reader, also below a tee, dereferences nil. *)
Fixpoint ReadAll (limit : option N) (rc : ReadCloser)
  : Res (bytes * option error * ReadCloser) :=
  match rc with
  | Source pending fault =>
      match limit with
      | Some n =>
          if (n <=? N.of_nat (length pending))%N then
            let '(data, rest) := splitN n pending in
            Ok (data, None, Source rest fault)
          else Ok (pending, fault, Source [] fault)
      | None => Ok (pending, fault, Source [] fault)
      end
  | NilReader => Panic "invalid memory address or nil pointer dereference"
  | NopCloserTee src buf =>
      match ReadAll limit src with
      | Ok (data, err, src') => Ok (data, err, NopCloserTee src' (buf ++ data))
      | Panic msg => Panic msg
      end
  end.

(** ** net/http: requests and form parsing *)

(** The fields of [http.Request] the handler and [ParseForm] use.
    [RawQuery] is [r.URL.RawQuery], [None] for a nil [r.URL]. *)
Record http_Request : Type := mkRequest {
  Method : string;
  RawQuery : option string;
  ReqHeader : Header.t;
  ReqBody : ReadCloser;
  PostForm : option URL.Values;
  Form : option URL.Values
}.

(** The library functions taken as parameters of the development:
    [mime.ParseMediaType] (the media type and the error; the parameters it
    also returns are not used by [ParseForm]) and
    [http.DetectContentType]. *)
Class GoStdlib : Type := {
  mime_ParseMediaType : string -> string * option error;
  http_DetectContentType : bytes -> string
}.

Definition formContentType : string := "application/x-www-form-urlencoded".

(** [maxFormSize = int64(10 << 20)] of [parsePostForm] *)
Definition maxFormSize : N := 10485760.

(** [copyValues(dst, src)]: the values of [src] appended key by key. *)
Definition copyValues (dst src : URL.Values) : URL.Values :=
  union_with (fun a b => Some (a ++ b)) dst src.

Section NetHTTP.
Context `{GoStdlib}.

(** [http.parsePostForm]: the request after the reads, the values ([None]
    for nil) and the error. *)
Definition parsePostForm (r : http_Request)
  : Res (http_Request * option URL.Values * option error) :=
  match ReqBody r with
  | NilReader => Ok (r, None, Some (errorString "missing form body"))
  | body =>
      let ct := Header.Get (ReqHeader r) "Content-Type" in
      let ct := if String.eqb ct EmptyString
                then "application/octet-stream" else ct in
      let '(ct, err) := mime_ParseMediaType ct in
      if String.eqb ct formContentType then
        match ReadAll (Some (maxFormSize + 1)%N) body with
        | Panic msg => Panic msg
        | Ok (b, e, body') =>
            let r' := mkRequest (Method r) (RawQuery r) (ReqHeader r)
                                body' (PostForm r) (Form r) in
            match e with
            | Some e' => Ok (r', None, Some (default e' err))
            | None =>
                if (maxFormSize <? N.of_nat (length b))%N then
                  Ok (r', None, Some (errorString "http: POST too large"))
                else
                  let '(vs, e) := URL.ParseQuery (string_of_bytes b) in
                  Ok (r', Some vs, if err is Some _ then err else e)
            end
        end
      else Ok (r, None, err)
  end.

(** [r.ParseForm()] *)
Definition ParseForm (r : http_Request) : Res (http_Request * option error) :=
  let step1 :=
    match PostForm r with
    | Some _ => Ok (r, None)
    | None =>
        let parsed :=
          if String.eqb (Method r) "POST" || String.eqb (Method r) "PUT"
             || String.eqb (Method r) "PATCH"
          then parsePostForm r
          else Ok (r, None, None) in
        match parsed with
        | Panic msg => Panic msg
        | Ok (r', vs, err) =>
            Ok (mkRequest (Method r') (RawQuery r') (ReqHeader r') (ReqBody r')
                          (Some (default ∅ vs)) (Form r'),
                err)
        end
    end in
  match step1 with
  | Panic msg => Panic msg
  | Ok (r, err) =>
      match Form r with
      | Some _ => Ok (r, err)
      | None =>
          let post := default ∅ (PostForm r) in
          let form0 := if decide (post = ∅) then None
                       else Some (copyValues ∅ post) in
          let '(newValues, e) :=
            match RawQuery r with
            | Some q => URL.ParseQuery q
            | None => (∅, None)
            end in
          let err := if err is Some _ then err else e in
          let form := match form0 with
                      | None => newValues
                      | Some f => copyValues f newValues
                      end in
          Ok (mkRequest (Method r) (RawQuery r) (ReqHeader r) (ReqBody r)
                        (PostForm r) (Some form),
              err)
      end
  end.

End NetHTTP.

(** ** net/http/httptest: the response recorder *)

(** [httptest.ResponseRecorder].  [RecBody] is [None] for a nil [Body]
    buffer; [snapHeader] is the copy of the headers taken when the status
    is written. *)
Record ResponseRecorder : Type := mkRecorder {
  Code : Z;
  HeaderMap : Header.t;
  RecBody : option bytes;
  wroteHeader : bool;
  snapHeader : option Header.t
}.

(** [httptest.NewRecorder()] *)
Definition NewRecorder : ResponseRecorder :=
  mkRecorder 200 ∅ (Some []) false None.

(** [rw.WriteHeader(code)]: ignored once a status is written; a code
    outside 100..999 panics ([checkWriteHeaderCode]). *)
Definition Recorder_WriteHeader (rw : ResponseRecorder) (code : Z)
  : Res ResponseRecorder :=
  if wroteHeader rw then Ok rw
  else if (code <? 100) || (999 <? code) then Panic "invalid WriteHeader code"
  else Ok (mkRecorder code (HeaderMap rw) (RecBody rw) true
                      (Some (HeaderMap rw))).

Section Recorder.
Context `{GoStdlib}.

(** [rw.writeHeader(b, "")]: the implicit status 200 of a first [Write],
    with a sniffed [Content-Type] when none is set. *)
Definition Recorder_writeHeader (rw : ResponseRecorder) (b : bytes)
  : Res ResponseRecorder :=
  if wroteHeader rw then Ok rw
  else
    let m := HeaderMap rw in
    let hasType := bool_decide (is_Some (m !! "Content-Type")) in
    let hasTE := negb (String.eqb (Header.Get m "Transfer-Encoding") EmptyString) in
    let m := if negb hasType && negb hasTE
             then Header.Set_ m "Content-Type" (http_DetectContentType b)
             else m in
    Recorder_WriteHeader
      (mkRecorder (Code rw) m (RecBody rw) (wroteHeader rw) (snapHeader rw)) 200.

(** [rw.Write(buf)]: never fails. *)
Definition Recorder_Write (rw : ResponseRecorder) (buf : bytes)
  : Res (ResponseRecorder * (Z * option error)) :=
  match Recorder_writeHeader rw buf with
  | Panic msg => Panic msg
  | Ok rw =>
      Ok (mkRecorder (Code rw) (HeaderMap rw)
                     (option_map (fun b => b ++ buf) (RecBody rw))
                     (wroteHeader rw) (snapHeader rw),
          (Z.of_nat (length buf), None))
  end.

End Recorder.

(** What [rw.Result()] shows of the response: status, headers, body. *)
Record http_Response : Type := mkResponse {
  StatusCode : Z;
  RespHeader : Header.t;
  RespBody : bytes
}.

(** [rw.Result()] *)
Definition Result (rw : ResponseRecorder) : http_Response :=
  mkResponse (if Code rw =? 0 then 200 else Code rw)
             (default (HeaderMap rw) (snapHeader rw))
             (default [] (RecBody rw)).

(** ** The mocked response writer of the tests *)

(** [mockResponseWriter]: [Header] returns the map [mock_Header], which
    callers may mutate; [WriteHeader] does nothing; [Write] returns what
    the script says for the number of earlier [Write] calls and the
    data. *)
Record mockResponseWriter : Type := mkMock {
  mock_Header : Header.t;
  mock_Write : nat -> bytes -> Z * option error;
  mock_writes : nat
}.

(** ** The store of response writers *)

(** The objects behind an [http.ResponseWriter] pointer. *)
Inductive Sink : Type :=
| RecorderSink (rw : ResponseRecorder)
| MockSink (m : mockResponseWriter).

(** The calls of the [http.ResponseWriter] interface. *)
Inductive Call : Type :=
| CallHeader
| CallWriteHeader (statusCode : Z)
| CallWrite (data : bytes).

(** The store: the writers by address, and the interface calls made on
    them so far, oldest first. *)
Record World : Type := mkWorld {
  sinks : list Sink;
  trace : list (nat * Call)
}.

(** Code that runs on the store and returns or panics. *)
Definition M (A : Type) : Type := World -> Res (A * World).

Definition ret {A : Type} (a : A) : M A := fun σ => Ok (a, σ).

Definition bind {A B : Type} (m : M A) (k : A -> M B) : M B :=
  fun σ => match m σ with
           | Ok (a, σ') => k a σ'
           | Panic msg => Panic msg
           end.

Definition lift {A : Type} (r : Res A) : M A :=
  fun σ => match r with
           | Ok a => Ok (a, σ)
           | Panic msg => Panic msg
           end.

Declare Scope go_scope.
Delimit Scope go_scope with go.
Notation "'let!' x ':=' m 'in' k" := (bind m (fun x => k))
  (at level 10, x name, m at level 100, k at level 200, only parsing)
  : go_scope.
Notation "'let!' ' p ':=' m 'in' k" := (bind m (fun x => let 'p := x in k))
  (at level 10, p pattern, m at level 100, k at level 200, only parsing)
  : go_scope.
Notation "'do!' m 'in' k" := (bind m (fun _ => k))
  (at level 10, m at level 100, k at level 200, only parsing) : go_scope.
Local Open Scope go_scope.

(** Dereference of a writer pointer; an address without object is nil. *)
Definition deref (l : nat) : M Sink :=
  fun σ => match sinks σ !! l with
           | Some s => Ok (s, σ)
           | None => Panic "invalid memory address or nil pointer dereference"
           end.

Definition store (l : nat) (s : Sink) : M unit :=
  fun σ => Ok (tt, mkWorld (<[l := s]> (sinks σ)) (trace σ)).

Definition log (l : nat) (c : Call) : M unit :=
  fun σ => Ok (tt, mkWorld (sinks σ) (trace σ ++ [(l, c)])).

(** Allocation of a new object. *)
Definition alloc (s : Sink) : M nat :=
  fun σ => Ok (length (sinks σ), mkWorld (sinks σ ++ [s]) (trace σ)).

(** A [for ... range] loop whose body runs on the store. *)
Definition for_each {A : Type} (body : A -> M unit) : list A -> M unit :=
  fix loop (xs : list A) : M unit :=
    match xs with
    | [] => ret tt
    | x :: xs' => do! body x in loop xs'
    end.

(** The loop of [multiTargetHTTPResponseWriter.Write]: [res] holds
    [(r, err)], assigned by every target's write; a non-nil [err] returns
    at once. *)
Definition write_each {A : Type} (write : A -> M (Z * option error))
  : Z * option error -> list A -> M (Z * option error) :=
  fix loop (res : Z * option error) (xs : list A) : M (Z * option error) :=
    match xs with
    | [] => ret res
    | x :: xs' =>
        let! res := write x in
        match res.2 with
        | Some _ => ret res
        | None => loop res xs'
        end
    end.

(** ** The writers *)

(** The header map of an object, and the object with another map. *)
Definition sink_headers (s : Sink) : Header.t :=
  match s with
  | RecorderSink rw => HeaderMap rw
  | MockSink m => mock_Header m
  end.

Definition with_headers (s : Sink) (h : Header.t) : Sink :=
  match s with
  | RecorderSink rw =>
      RecorderSink (mkRecorder (Code rw) h (RecBody rw) (wroteHeader rw)
                               (snapHeader rw))
  | MockSink m => MockSink (mkMock h (mock_Write m) (mock_writes m))
  end.

(** A header map handed out by [Header()] is a reference: [Some l] is the
    map owned by the object at [l], [None] a fresh map attached to
    nothing.  [Header_update ref f] is a mutation of that map, such as
    [.Set(k, v)] or [.Add(k, v)]. *)
Definition Header_update (ref : option nat) (f : Header.t -> Header.t)
  : M unit :=
  match ref with
  | None => ret tt
  | Some l => let! s := deref l in store l (with_headers s (f (sink_headers s)))
  end.

(** An [http.ResponseWriter] value: a pointer to a stored object, or a
    [*multiTargetHTTPResponseWriter] with its [targets]. *)
#[warnings="-register-all"] Inductive ResponseWriter : Type :=
| SinkAt (l : nat)
| MultiTarget (targets : list ResponseWriter).

(** [newMultiTargetHTTPResponseWriter(targets...)] *)
Definition newMultiTargetHTTPResponseWriter (targets : list ResponseWriter)
  : ResponseWriter :=
  MultiTarget ([] ++ targets).

Section Writers.
Context `{GoStdlib}.

(** The three interface methods on a stored object. *)
Definition Sink_Header (l : nat) : M (option nat) :=
  let! _ := deref l in do! log l CallHeader in ret (Some l).

Definition Sink_WriteHeader (l : nat) (statusCode : Z) : M unit :=
  let! s := deref l in
  do! log l (CallWriteHeader statusCode) in
  match s with
  | RecorderSink rw =>
      let! rw := lift (Recorder_WriteHeader rw statusCode) in
      store l (RecorderSink rw)
  | MockSink _ => ret tt
  end.

Definition Sink_Write (l : nat) (data : bytes) : M (Z * option error) :=
  let! s := deref l in
  do! log l (CallWrite data) in
  match s with
  | RecorderSink rw =>
      let! '(rw, res) := lift (Recorder_Write rw data) in
      do! store l (RecorderSink rw) in ret res
  | MockSink m =>
      do! store l (MockSink (mkMock (mock_Header m) (mock_Write m)
                                    (S (mock_writes m)))) in
      ret (mock_Write m (mock_writes m) data)
  end.

(** [w.Header()]; for a multi-target writer, the header map of the first
    target, or a fresh map without targets. *)
Fixpoint ResponseWriter_Header (w : ResponseWriter) : M (option nat) :=
  match w with
  | SinkAt l => Sink_Header l
  | MultiTarget [] => ret None
  | MultiTarget (target :: _) => ResponseWriter_Header target
  end.

(** [w.WriteHeader(statusCode)]; for a multi-target writer, the call on
    each target. *)
Fixpoint ResponseWriter_WriteHeader (w : ResponseWriter) (statusCode : Z)
  : M unit :=
  match w with
  | SinkAt l => Sink_WriteHeader l statusCode
  | MultiTarget targets =>
      for_each (fun target => ResponseWriter_WriteHeader target statusCode)
               targets
  end.

(** [w.Write(data)]; for a multi-target writer, the writes up to the
    first failure. *)
Fixpoint ResponseWriter_Write (w : ResponseWriter) (data : bytes)
  : M (Z * option error) :=
  match w with
  | SinkAt l => Sink_Write l data
  | MultiTarget targets =>
      write_each (fun target => ResponseWriter_Write target data)
                 (0, None) targets
  end.

(** [mw.headersAdd(key, value)] on the targets of [mw] *)
Definition headersAdd (targets : list ResponseWriter) (key value : string)
  : M unit :=
  for_each (fun target =>
              let! h := ResponseWriter_Header target in
              Header_update h (fun m => Header.Add m key value))
           targets.

End Writers.

(** ** The test server *)

(** Data of a predefined server response.  [Headers] is a Go map; the list
    holds its keys with their values in the order the [range] loop of the
    handler visits them, which Go leaves unspecified. *)
Record PredefinedServerResponse : Type := mkPredefinedServerResponse {
  Status : Z;
  Headers : list (string * list string);
  Body : bytes
}.

(** Data of a server record.  [Request] and [Response] are pointers
    ([None] for nil): [Response] is the address of the recorder in the
    store, and the request is held as the handler left it.  [RequestBody]
    is the content of the buffer the tee reader fills. *)
Record ServerRecord : Type := mkServerRecord {
  Request : option http_Request;
  Response : option nat;
  RequestBody : bytes;
  ServerError : option error
}.

(** The test server: the queue of predefined responses and the queue of
    records.  The [httptest.Server] it is mounted on is not part of the
    model. *)
Record HTTPTestServer : Type := mkHTTPTestServer {
  responses : list PredefinedServerResponse;
  records : list ServerRecord
}.

(** [NewHTTPTestServer(server)] *)
Definition NewHTTPTestServer : HTTPTestServer := mkHTTPTestServer [] [].

(** [hts.PushPredefinedServerResponse(resp)] *)
Definition PushPredefinedServerResponse (hts : HTTPTestServer)
  (resp : PredefinedServerResponse) : HTTPTestServer :=
  mkHTTPTestServer (responses hts ++ [resp]) (records hts).

(** [hts.PopServerRecord()]: the record returned ([None] for nil) and the
    server afterwards. *)
Definition PopServerRecord (hts : HTTPTestServer)
  : option ServerRecord * HTTPTestServer :=
  let record := None in
  if (1 <=? length (records hts))%nat then
    match records hts with
    | first :: rest => (Some first, mkHTTPTestServer (responses hts) rest)
    | [] => (record, hts)
    end
  else (record, hts).

(** [hts.ClearPredefinedServerResponses()] *)
Definition ClearPredefinedServerResponses (hts : HTTPTestServer)
  : HTTPTestServer :=
  mkHTTPTestServer [] (records hts).

(** [hts.ClearServerRecords()] *)
Definition ClearServerRecords (hts : HTTPTestServer) : HTTPTestServer :=
  mkHTTPTestServer (responses hts) [].

(** [hts.Clear()] *)
Definition Clear (hts : HTTPTestServer) : HTTPTestServer :=
  ClearServerRecords (ClearPredefinedServerResponses hts).

(** [r.Body = body] *)
Definition set_Body (r : http_Request) (body : ReadCloser) : http_Request :=
  mkRequest (Method r) (RawQuery r) (ReqHeader r) body (PostForm r) (Form r).

(** The content of [serverRecord.RequestBody], the buffer of the tee
    reader that [r.Body] is. *)
Definition tee_buffer (r : http_Request) : bytes :=
  match ReqBody r with
  | NopCloserTee _ buf => buf
  | _ => []
  end.

(** [r.Body != nil] *)
Definition not_nil (rc : ReadCloser) : bool :=
  match rc with
  | NilReader => false
  | _ => true
  end.

Section Handler.
Context `{GoStdlib}.

(** [srv.handleInternalError(w, serverRecord, err)] *)
Definition handleInternalError (srv : HTTPTestServer) (w : ResponseWriter)
  (serverRecord : ServerRecord) (err : error) : M HTTPTestServer :=
  let serverRecord :=
    mkServerRecord (Request serverRecord) (Response serverRecord)
                   (RequestBody serverRecord) (Some err) in
  let srv := mkHTTPTestServer (responses srv) (records srv ++ [serverRecord]) in
  let! h := ResponseWriter_Header w in
  do! Header_update h (fun m => Header.Set_ m "Content-Type" "text/plain") in
  do! ResponseWriter_WriteHeader w 500 in
  let! _ := ResponseWriter_Write w (bytes_of_string (Error err)) in
  ret srv.

(** [handleInternalError] as the second listing of the file has it
    (the listing that repeats the declarations up to this function): the
    same, without the [Content-Type] line. *)
Definition handleInternalError_second_listing (srv : HTTPTestServer)
  (w : ResponseWriter) (serverRecord : ServerRecord) (err : error)
  : M HTTPTestServer :=
  let serverRecord :=
    mkServerRecord (Request serverRecord) (Response serverRecord)
                   (RequestBody serverRecord) (Some err) in
  let srv := mkHTTPTestServer (responses srv) (records srv ++ [serverRecord]) in
  do! ResponseWriter_WriteHeader w 500 in
  let! _ := ResponseWriter_Write w (bytes_of_string (Error err)) in
  ret srv.

(** The first block of [ServeHTTP] on the request: [r.Body] becomes the
    tee reader, and, unless the content type is the form one, the body is
    read to its end.  The result is the request afterwards and the error
    of the read. *)
Definition ServeHTTP_readBody (r : http_Request)
  : Res (http_Request * option error) :=
  let r := set_Body r (NopCloserTee (ReqBody r) []) in
  if not_nil (ReqBody r)
     && negb (String.eqb (Header.Get (ReqHeader r) "Content-Type")
                         "application/x-www-form-urlencoded")
  then
    match ReadAll None (ReqBody r) with
    | Ok (_, err, body) => Ok (set_Body r body, err)
    | Panic msg => Panic msg
    end
  else Ok (r, None).

(** The block of [ServeHTTP] that picks the response: the default 404
    response, or the first response of the queue, which is removed only
    when another one follows it. *)
Definition ServeHTTP_response (srv : HTTPTestServer)
  : PredefinedServerResponse * HTTPTestServer :=
  let response := mkPredefinedServerResponse 404 [] [] in
  let response :=
    if (1 <=? length (responses srv))%nat
    then hd response (responses srv) else response in
  let srv :=
    if (1 <? length (responses srv))%nat
    then mkHTTPTestServer (tl (responses srv)) (records srv)
    else srv in
  (response, srv).

(** [srv.ServeHTTP(w, r)].  [serverRecord] points to [r] and to the buffer
    of the tee reader; the record appended is built from [r] as it stands
    at that point, which is how the pointers show it from then on, since
    the handler touches neither afterwards. *)
Definition ServeHTTP (srv : HTTPTestServer) (w : ResponseWriter)
  (r : http_Request) : M HTTPTestServer :=
  let! responseRecorder := alloc (RecorderSink NewRecorder) in
  let serverRecord (r : http_Request) :=
    mkServerRecord (Some r) (Some responseRecorder) (tee_buffer r) None in
  let targets := [SinkAt responseRecorder; w] in
  let mw := newMultiTargetHTTPResponseWriter targets in
  let! '(r, err) := lift (ServeHTTP_readBody r) in
  match err with
  | Some err =>
      let werr :=
        Errorf_w "test server failed to read the request body: " err in
      handleInternalError srv mw (serverRecord r) werr
  | None =>
      let! '(r, err) := lift (ParseForm r) in
      match err with
      | Some err =>
          let werr :=
            Errorf_w "test server failed to parse query string and form data: "
                     err in
          handleInternalError srv mw (serverRecord r) werr
      | None =>
          let '(response, srv) := ServeHTTP_response srv in
          do! for_each (fun '(header, values) =>
                          for_each (fun value => headersAdd targets header value)
                                   values)
                       (Headers response) in
          do! ResponseWriter_WriteHeader mw (Status response) in
          let! err :=
            if (0 <? length (Body response))%nat then
              let! '(_, err) := ResponseWriter_Write mw (Body response) in
              ret err
            else ret None in
          match err with
          | Some err =>
              let werr :=
                Errorf_w "test server failed to write the predefined response: "
                         err in
              handleInternalError srv mw (serverRecord r) werr
          | None =>
              ret (mkHTTPTestServer (responses srv)
                                    (records srv ++ [serverRecord r]))
          end
      end
  end.

(** Requests handled one after the other, each with its writer. *)
Fixpoint ServeHTTP_all (srv : HTTPTestServer)
  (reqs : list (ResponseWriter * http_Request)) : M HTTPTestServer :=
  match reqs with
  | [] => ret srv
  | (w, r) :: reqs' =>
      let! srv := ServeHTTP srv w r in ServeHTTP_all srv reqs'
  end.

End Handler.

(** ** A concrete instance of the library parameters *)

Fixpoint map_chars (f : ascii -> ascii) (s : string) : string :=
  match s with
  | EmptyString => EmptyString
  | String c s' => String (f c) (map_chars f s')
  end.

Fixpoint trim_left (s : string) : string :=
  match s with
  | String c s' => if Ascii.eqb c " "%char then trim_left s' else s
  | EmptyString => EmptyString
  end.

Fixpoint trim_right (s : string) : string :=
  match s with
  | EmptyString => EmptyString
  | String c s' =>
      match trim_right s' with
      | EmptyString => if Ascii.eqb c " "%char then EmptyString
                       else String c EmptyString
      | t => String c t
      end
  end.

(** The first two lines of [mime.ParseMediaType]: the text before the
    first semicolon, in lower case and without surrounding spaces.  It is
    the library's answer, with a nil error, for a well-formed media type
    with well-formed parameters or none. *)
Definition base_media_type (v : string) : string * option error :=
  (trim_right (trim_left (map_chars Header.to_lower (URL.Cut ";"%char v).1)),
   None).

(** The instance used in the concrete runs below.  [DetectContentType] is
    given its fallback answer; no run below reaches it, since the handler
    writes a status before any body. *)
Definition go_std : GoStdlib :=
  {| mime_ParseMediaType := base_media_type;
     http_DetectContentType := fun _ => "application/octet-stream" |}.

(** * Specification *)

(** ** Vocabulary of the statements *)

(** The stored objects a writer reaches, in the order of its targets. *)
Fixpoint leaves (w : ResponseWriter) : list nat :=
  match w with
  | SinkAt l => [l]
  | MultiTarget targets => flat_map leaves targets
  end.

(** Every pointer in the writer is to an object at an address below [n]. *)
Definition wf_writer (n : nat) (w : ResponseWriter) : Prop :=
  Forall (fun l => (l < n)%nat) (leaves w).

(** The status codes [WriteHeader] accepts without a panic. *)
Definition valid_status (code : Z) : Prop := 100 <= code <= 999.

(** An object on which [WriteHeader(code)] returns: a mock, a recorder
    that has a status already, or a code in range. *)
Definition accepts (code : Z) (s : Sink) : Prop :=
  match s with
  | RecorderSink rw => wroteHeader rw = true \/ valid_status code
  | MockSink _ => True
  end.

Definition accepts_at (σ : World) (code : Z) (l : nat) : Prop :=
  exists s, sinks σ !! l = Some s /\ accepts code s.

(** A body that can be read: no nil reader at the bottom of the tees. *)
Fixpoint readable (rc : ReadCloser) : bool :=
  match rc with
  | NilReader => false
  | Source _ _ => true
  | NopCloserTee src _ => readable src
  end.

(** The header map after the header loop of [ServeHTTP] on [hs]. *)
Definition add_headers (hs : list (string * list string)) (m : Header.t)
  : Header.t :=
  fold_left (fun m '(key, values) =>
               fold_left (fun m value => Header.Add m key value) values m)
            hs m.

(** The header [Content-Type: text/plain] alone. *)
Definition text_plain : Header.t := Header.Set_ ∅ "Content-Type" "text/plain".

(** The calls [handleInternalError] makes on the recorder at [n] and on
    the writer [w] of the request, up to the write on the recorder:
    [Header()] on the recorder, whose map gets the content type,
    [WriteHeader(500)] on every object, and [Write] of the text of the
    error on the recorder. The writes on the objects of [w] follow. *)
Definition error_calls (n : nat) (w : ResponseWriter) (err : error)
  : list (nat * Call) :=
  (n, CallHeader)
    :: map (fun l => (l, CallWriteHeader 500)) (n :: leaves w)
    ++ [(n, CallWrite (bytes_of_string (Error err)))].

(** Targets written one after the other, none reporting a failure. *)
Inductive writes_ok {A : Type} (write : A -> M (Z * option error))
  : list A -> World -> World -> Prop :=
| writes_ok_nil σ : writes_ok write [] σ σ
| writes_ok_cons x xs n σ σ1 σ2 :
    write x σ = Ok ((n, None), σ1) ->
    writes_ok write xs σ1 σ2 ->
    writes_ok write (x :: xs) σ σ2.

(** The contract of the multi-target write in the words of its
    description: nothing to write to; or every target written in order and
    the result of the last one; or the targets written in order up to the
    first one that fails, whose result and store are the final ones. *)
Definition first_failure_wins {A : Type} (write : A -> M (Z * option error))
  (targets : list A) (σ : World) (res : Z * option error) (σ' : World) : Prop :=
  (targets = [] /\ res = (0, None) /\ σ' = σ)
  \/ (exists before last n σ1,
        targets = before ++ [last] /\ writes_ok write before σ σ1
        /\ write last σ1 = Ok ((n, None), σ') /\ res = (n, None))
  \/ (exists before failing after n e σ1,
        targets = before ++ failing :: after /\ writes_ok write before σ σ1
        /\ write failing σ1 = Ok ((n, Some e), σ') /\ res = (n, Some e)).

(** The store changes only at the addresses [ls], and no object is added
    or removed. *)
Definition frame (ls : list nat) (σ σ' : World) : Prop :=
  length (sinks σ') = length (sinks σ)
  /\ forall l, l ∉ ls -> sinks σ' !! l = sinks σ !! l.

(** The store after a request handled from [σ], whose objects number [n]:
    one more object, and the earlier objects that the writer of the
    request does not reach are as they were. *)
Definition grows (n : nat) (ls : list nat) (σ σ' : World) : Prop :=
  length (sinks σ') = S n
  /\ forall l, (l < n)%nat -> l ∉ ls -> sinks σ' !! l = sinks σ !! l.

(** The recorder made for the request is at address [n], in state [rw],
    and is the newest object of the store. *)
Definition holds_recorder (n : nat) (rw : ResponseRecorder) (σ : World) : Prop :=
  length (sinks σ) = S n /\ sinks σ !! n = Some (RecorderSink rw).

(** The recorder after a mutation of its header map, after
    [WriteHeader(code)] with a code in range, and after a [Write] that
    follows a [WriteHeader]. *)
Definition with_HeaderMap (rw : ResponseRecorder) (h : Header.t)
  : ResponseRecorder :=
  mkRecorder (Code rw) h (RecBody rw) (wroteHeader rw) (snapHeader rw).

Definition with_status (rw : ResponseRecorder) (code : Z) : ResponseRecorder :=
  if wroteHeader rw then rw
  else mkRecorder code (HeaderMap rw) (RecBody rw) true (Some (HeaderMap rw)).

Definition with_written (rw : ResponseRecorder) (data : bytes)
  : ResponseRecorder :=
  mkRecorder (Code rw) (HeaderMap rw)
             (option_map (fun b => b ++ data) (RecBody rw))
             (wroteHeader rw) (snapHeader rw).

(** The recorder after [handleInternalError]. *)
Definition recorder_after_error (rw : ResponseRecorder) (err : error)
  : ResponseRecorder :=
  with_written
    (with_status
       (with_HeaderMap rw (Header.Set_ (HeaderMap rw) "Content-Type" "text/plain"))
       500)
    (bytes_of_string (Error err)).

(** The recorder of a request that failed before a response was picked. *)
Definition failed_recorder (werr : error) : ResponseRecorder :=
  mkRecorder 500 text_plain (Some (bytes_of_string (Error werr))) true
             (Some text_plain).

(** The recorder of a request that was served [resp], the write of the
    body having failed with [werr] or not. *)
Definition served_recorder (resp : PredefinedServerResponse)
  (werr : option error) : ResponseRecorder :=
  let h := add_headers (Headers resp) ∅ in
  match werr with
  | None => mkRecorder (Status resp) h (Some (Body resp)) true (Some h)
  | Some e =>
      mkRecorder (Status resp) (Header.Set_ h "Content-Type" "text/plain")
                 (Some (Body resp ++ bytes_of_string (Error e))) true (Some h)
  end.

Definition write_failure_prefix : string :=
  "test server failed to write the predefined response: ".

(** The recorder [record.Response] points to, on the store [σ]. *)
Definition recorder_of (σ : World) (record : ServerRecord)
  : option ResponseRecorder :=
  match Response record with
  | Some l =>
      match sinks σ !! l with
      | Some (RecorderSink rw) => Some rw
      | _ => None
      end
  | None => None
  end.

(** [record.Response.Result()] on the store [σ]. *)
Definition recorded (σ : World) (record : ServerRecord) : option http_Response :=
  Result <$> recorder_of σ record.

(** The response the handler picks on its [j]-th request after the queue
    was [rs]: the responses in order, the last one from then on, the
    default 404 response for an empty queue. *)
Definition nth_response (rs : list PredefinedServerResponse) (j : nat)
  : PredefinedServerResponse :=
  default (mkPredefinedServerResponse 404 [] [])
          (rs !! Nat.min j (length rs - 1)).

(** The text written after the body when the record holds an error. *)
Definition error_text (err : option error) : bytes :=
  match err with
  | Some e => bytes_of_string (Error e)
  | None => []
  end.

(** The response a request served [resp] leaves in its recorder. *)
Definition response_of (resp : PredefinedServerResponse) (err : option error)
  : http_Response :=
  mkResponse (Status resp) (add_headers (Headers resp) ∅)
             (Body resp ++ error_text err).

(** The methods for which [ParseForm] looks at the body. *)
Definition form_method (m : string) : bool :=
  String.eqb m "POST" || String.eqb m "PUT" || String.eqb m "PATCH".

Section Vocabulary.
Context `{GoStdlib}.

(** What [ServeHTTP] does to the request before it picks a response: the
    request afterwards, and the wrapped failure of the body read or of
    the form parsing, if any. *)
Definition read_and_parse (r : http_Request)
  : Res (http_Request * option error) :=
  match ServeHTTP_readBody r with
  | Panic msg => Panic msg
  | Ok (r, Some err) =>
      Ok (r, Some (Errorf_w "test server failed to read the request body: "
                            err))
  | Ok (r, None) =>
      match ParseForm r with
      | Panic msg => Panic msg
      | Ok (r, Some err) =>
          Ok (r, Some (Errorf_w
                         "test server failed to parse query string and form data: "
                         err))
      | Ok (r, None) => Ok (r, None)
      end
  end.

(** [ParseForm] reads the body of the request: the form is not parsed
    yet, the method is one with a form body, the body is not nil, and the
    media type of the content type is the form one. *)
Definition parses_body (r : http_Request) : bool :=
  match PostForm r with
  | Some _ => false
  | None =>
      form_method (Method r) && not_nil (ReqBody r)
      && String.eqb
           (mime_ParseMediaType
              (if String.eqb (Header.Get (ReqHeader r) "Content-Type") EmptyString
               then "application/octet-stream"
               else Header.Get (ReqHeader r) "Content-Type")).1
           formContentType
  end.

End Vocabulary.

(** ** The requests, writers and stores of the concrete runs *)

(** A store with the recorder a test passes as the client's writer. *)
Definition client_recorder : World := mkWorld [RecorderSink NewRecorder] [].

(** The error of the mocks. *)
Definition PWNED : error := errorString "PWNED".

(** A store with the recorder of a test and a mocked writer whose [Write]
    fails. *)
Definition failing_client : World :=
  mkWorld [RecorderSink NewRecorder;
           MockSink (mkMock ∅ (fun _ _ => (0, Some PWNED)) 0)] [].

Definition GET (query : string) : http_Request :=
  mkRequest "GET" (Some query) ∅ (Source [] None) None None.

Definition POST (contentType : string) (body : string) : http_Request :=
  mkRequest "POST" (Some EmptyString) {[ "Content-Type" := [contentType] ]}
            (Source (bytes_of_string body) None) None None.

(** A request whose body fails when it is read ([mockReadCloser]). *)
Definition POST_failing_body (contentType : string) : http_Request :=
  mkRequest "POST" (Some EmptyString) {[ "Content-Type" := [contentType] ]}
            (Source [] (Some PWNED)) None None.

Definition response_A : PredefinedServerResponse :=
  mkPredefinedServerResponse
    200 [("Content-Type", ["application/json"])]
    (bytes_of_string "{x:1}").

Definition response_B : PredefinedServerResponse :=
  mkPredefinedServerResponse 204 [] [].

(** The statuses the recorders of the records show, oldest first. *)
Definition recorded_statuses (σ : World) (hts : HTTPTestServer)
  : list (option Z) :=
  map (fun record => StatusCode <$> recorded σ record) (records hts).

(** Three requests after the responses A (200) and B (204) are pushed. *)
Definition three_requests : list (ResponseWriter * http_Request) :=
  [(SinkAt 0, GET ""); (SinkAt 0, POST "application/json" "hello");
   (SinkAt 0, GET "page=2")].

(** ** Vocabulary of the further properties *)

(** [PopServerRecord] called [n] times: what the calls return, the first
    call first, and the server afterwards. *)
Fixpoint PopServerRecords (n : nat) (hts : HTTPTestServer)
  : list (option ServerRecord) * HTTPTestServer :=
  match n with
  | O => ([], hts)
  | S n' =>
      let '(record, hts) := PopServerRecord hts in
      let '(popped, hts) := PopServerRecords n' hts in
      (record :: popped, hts)
  end.

(** A stored object after a mutation [f] of its header map, after
    [WriteHeader(code)] with a code in range, and after a [Write] that
    follows a [WriteHeader]; the result of that [Write]. *)
Definition after_headers (s : Sink) (f : Header.t -> Header.t) : Sink :=
  with_headers s (f (sink_headers s)).

Definition after_WriteHeader (s : Sink) (code : Z) : Sink :=
  match s with
  | RecorderSink rw => RecorderSink (with_status rw code)
  | MockSink _ => s
  end.

Definition after_Write (s : Sink) (data : bytes) : Sink :=
  match s with
  | RecorderSink rw => RecorderSink (with_written rw data)
  | MockSink m =>
      MockSink (mkMock (mock_Header m) (mock_Write m) (S (mock_writes m)))
  end.

Definition write_result (s : Sink) (data : bytes) : Z * option error :=
  match s with
  | RecorderSink _ => (Z.of_nat (length data), None)
  | MockSink m => mock_Write m (mock_writes m) data
  end.

(** An object whose [Write] does not write a status first. *)
Definition committed (s : Sink) : Prop :=
  match s with
  | RecorderSink rw => wroteHeader rw = true
  | MockSink _ => True
  end.

(** The recorder of the request at [n] in state [rw], and the object of
    the client at the earlier address [c] in state [s]. *)
Definition holds_both (n : nat) (rw : ResponseRecorder) (c : nat) (s : Sink)
  (σ : World) : Prop :=
  holds_recorder n rw σ /\ (c < n)%nat /\ sinks σ !! c = Some s.

(** The object of the client after the error response. *)
Definition client_after_error (s : Sink) (err : error) : Sink :=
  after_Write (after_WriteHeader s 500) (bytes_of_string (Error err)).

(** The object of the client after a request served [resp], and the error
    the record of the request holds. *)
Definition client_served (resp : PredefinedServerResponse) (s : Sink)
  : Sink * option error :=
  let s := after_WriteHeader (after_headers s (add_headers (Headers resp)))
                             (Status resp) in
  match Body resp with
  | [] => (s, None)
  | body =>
      match (write_result s body).2 with
      | None => (after_Write s body, None)
      | Some cause =>
          let werr := Errorf_w write_failure_prefix cause in
          (client_after_error (after_Write s body) werr, Some werr)
      end
  end.

(** The calls of the header loop of the handler for the headers [hs],
    with the recorder at [n] and the writer of the client at [c]:
    [Header()] on both, for each value. *)
Definition header_calls (n c : nat) (hs : list (string * list string))
  : list (nat * Call) :=
  flat_map (fun '(_, values) =>
              flat_map (fun _ : string => [(n, CallHeader); (c, CallHeader)])
                       values)
           hs.

(** The calls of the handler on a request served [resp], the record of
    which holds the error [werr]. *)
Definition served_calls (n c : nat) (resp : PredefinedServerResponse)
  (werr : option error) : list (nat * Call) :=
  header_calls n c (Headers resp)
  ++ [(n, CallWriteHeader (Status resp)); (c, CallWriteHeader (Status resp))]
  ++ match Body resp with
     | [] => []
     | body => [(n, CallWrite body); (c, CallWrite body)]
     end
  ++ match werr with
     | Some e =>
         error_calls n (SinkAt c) e ++ [(c, CallWrite (bytes_of_string (Error e)))]
     | None => []
     end.

(** The header map after [Add(key, value)], seen key by key: the values
    under the canonical form of [key] are followed by [value], the other
    keys keep theirs. *)
Definition added (h : Header.t) (key value : string) (k : string)
  : option (list string) :=
  if decide (k = Header.CanonicalMIMEHeaderKey key)
  then Some (default [] (h !! k) ++ [value])
  else h !! k.

(** ** The servers and requests of the further runs *)

(** The mocked writer of [failing_client]. *)
Definition failing_mock : mockResponseWriter :=
  mkMock ∅ (fun _ _ => (0, Some PWNED)) 0.

(** A server with the response A pushed. *)
Definition server_A : HTTPTestServer :=
  PushPredefinedServerResponse NewHTTPTestServer response_A.

(** A response pushed without a status. *)
Definition response_without_status : PredefinedServerResponse :=
  mkPredefinedServerResponse 0 [] (bytes_of_string "x").


(** A record that points to no recorder. *)
Definition blank_record : ServerRecord := mkServerRecord None None [] None.

(** * Verification *)

(** ** The library model on known values *)

Example canonical_key_content_type :
  Header.CanonicalMIMEHeaderKey "content-type" = "Content-Type".
Proof. reflexivity. Qed.

Example canonical_key_fixpoint :
  Header.CanonicalMIMEHeaderKey "Content-Type" = "Content-Type".
Proof. reflexivity. Qed.

Example ParseQuery_two_keys :
  URL.ParseQuery "b=2&a=1&b=3" = ({[ "a" := ["1"]; "b" := ["2"; "3"] ]}, None).
Proof. vm_compute. reflexivity. Qed.

Example Encode_sorts_keys :
  URL.Encode (URL.ParseQuery "b=2&a=1&b=3").1 = "a=1&b=2&b=3".
Proof. vm_compute. reflexivity. Qed.

Example Encode_escapes :
  URL.Encode (URL.ParseQuery "msg=hello+wor%6cd%21").1 = "msg=hello+world%21".
Proof. vm_compute. reflexivity. Qed.

Example ParseQuery_bad_escape :
  (URL.ParseQuery "a=%zz").2 = Some (URL.EscapeError "%zz").
Proof. vm_compute. reflexivity. Qed.

Example ParseQuery_semicolon :
  (URL.ParseQuery "a=1;b=2").2
  = Some (errorString "invalid semicolon separator in query").
Proof. vm_compute. reflexivity. Qed.

(** ** The record store *)

(** C7. Popping from an empty store returns nil and leaves the server as
    it is; popping from a store that holds [oldest :: rest] returns
    [oldest], leaves [rest], keeps the response queue, and the store is
    one record shorter. *)
Theorem PopServerRecord_oldest_first (hts : HTTPTestServer) :
  match records hts with
  | [] => PopServerRecord hts = (None, hts)
  | oldest :: rest =>
      PopServerRecord hts
      = (Some oldest, mkHTTPTestServer (responses hts) rest)
      /\ S (length (records (PopServerRecord hts).2)) = length (records hts)
  end.
Proof.
  unfold PopServerRecord.
  destruct (records hts) as [|oldest rest] eqn:E; cbn; [reflexivity|].
  split; reflexivity.
Qed.

(** Records appended one by one come back in the order of the appends. *)
Lemma PopServerRecord_after_appends (hts : HTTPTestServer)
  (first : ServerRecord) (later : list ServerRecord) :
  records hts = [] ->
  PopServerRecord
    (mkHTTPTestServer (responses hts)
                      (fold_left (fun recs rec => recs ++ [rec]) later
                                 (records hts ++ [first])))
  = (Some first, mkHTTPTestServer (responses hts) later).
Proof.
  intros ->. cbn [app].
  assert (Hfold : forall l acc,
            fold_left (fun recs rec => recs ++ [rec]) l acc
            = (acc ++ l : list ServerRecord)).
  { induction l as [|x l IH]; intros acc; cbn.
    - by rewrite app_nil_r.
    - rewrite IH. by rewrite <- app_assoc. }
  rewrite Hfold. reflexivity.
Qed.

(** ** Reasoning about code on the store *)

Lemma bind_Ok {A B : Type} (m : M A) (k : A -> M B) σ a σ' :
  m σ = Ok (a, σ') -> bind m k σ = k a σ'.
Proof. unfold bind. by intros ->. Qed.

Lemma for_each_cons {A : Type} (body : A -> M unit) x xs :
  for_each body (x :: xs) = bind (body x) (fun _ => for_each body xs).
Proof. reflexivity. Qed.

Lemma write_each_cons {A : Type} (write : A -> M (Z * option error)) res x xs :
  write_each write res (x :: xs)
  = bind (write x) (fun res => match res.2 with
                               | Some _ => ret res
                               | None => write_each write res xs
                               end).
Proof. reflexivity. Qed.

(** Induction on writers, with the hypothesis for every target of a
    multi-target writer. *)
Lemma ResponseWriter_targets_ind (P : ResponseWriter -> Prop) :
  (forall l, P (SinkAt l)) ->
  (forall targets, Forall P targets -> P (MultiTarget targets)) ->
  forall w, P w.
Proof.
  intros Hsink Hmulti.
  fix IH 1. intros [l|targets].
  - apply Hsink.
  - apply Hmulti. induction targets as [|t ts IHts]; constructor.
    + apply IH.
    + apply IHts.
Qed.

Lemma frame_refl ls σ : frame ls σ σ.
Proof. by split. Qed.

Lemma frame_trans ls1 ls2 σ σ1 σ2 :
  frame ls1 σ σ1 -> frame ls2 σ1 σ2 -> frame (ls1 ++ ls2) σ σ2.
Proof.
  intros [Hlen1 H1] [Hlen2 H2]. split; [congruence|].
  intros l Hl. rewrite H2, H1; [done| |];
    intros Hin; apply Hl; apply elem_of_app; auto.
Qed.

Lemma frame_mono ls ls' σ σ' :
  ls ⊆ ls' -> frame ls σ σ' -> frame ls' σ σ'.
Proof.
  intros Hsub [Hlen Hf]. split; [done|].
  intros l Hl. apply Hf. intros Hin. apply Hl. by apply Hsub.
Qed.

Lemma frame_twice ls σ σ1 σ2 :
  frame ls σ σ1 -> frame ls σ1 σ2 -> frame ls σ σ2.
Proof.
  intros H1 H2. eapply frame_mono; [|eapply frame_trans; [exact H1|exact H2]].
  intros l Hl. apply elem_of_app in Hl. tauto.
Qed.

Lemma frame_store l s σ tr :
  frame [l] σ (mkWorld (<[l := s]> (sinks σ)) tr).
Proof.
  split; cbn.
  - apply length_insert.
  - intros l' Hl'. apply list_lookup_insert_ne. set_solver.
Qed.

Lemma frame_log ls σ tr : frame ls σ (mkWorld (sinks σ) tr).
Proof. by split. Qed.

Section WriterFacts.
Context `{GoStdlib}.

(** *** The interface calls on one stored object *)

Lemma Sink_Header_eq l s σ :
  sinks σ !! l = Some s ->
  Sink_Header l σ
  = Ok (Some l, mkWorld (sinks σ) (trace σ ++ [(l, CallHeader)])).
Proof. intros Hs. unfold Sink_Header, bind, deref, log, ret. by rewrite Hs. Qed.

Lemma Header_update_eq l s f σ :
  sinks σ !! l = Some s ->
  Header_update (Some l) f σ
  = Ok (tt, mkWorld (<[l := with_headers s (f (sink_headers s))]> (sinks σ))
                    (trace σ)).
Proof. intros Hs. unfold Header_update, bind, deref, store. by rewrite Hs. Qed.

Lemma Sink_WriteHeader_recorder l rw rw' code σ :
  sinks σ !! l = Some (RecorderSink rw) ->
  Recorder_WriteHeader rw code = Ok rw' ->
  Sink_WriteHeader l code σ
  = Ok (tt, mkWorld (<[l := RecorderSink rw']> (sinks σ))
                    (trace σ ++ [(l, CallWriteHeader code)])).
Proof.
  intros Hs Hrw. unfold Sink_WriteHeader, bind, deref, log, lift, store.
  rewrite Hs. cbn. by rewrite Hrw.
Qed.

Lemma Sink_WriteHeader_mock l m code σ :
  sinks σ !! l = Some (MockSink m) ->
  Sink_WriteHeader l code σ
  = Ok (tt, mkWorld (sinks σ) (trace σ ++ [(l, CallWriteHeader code)])).
Proof.
  intros Hs. unfold Sink_WriteHeader, bind, deref, log, ret. by rewrite Hs.
Qed.

Lemma Recorder_WriteHeader_accepts rw code :
  accepts code (RecorderSink rw) ->
  exists rw', Recorder_WriteHeader rw code = Ok rw' /\ wroteHeader rw' = true.
Proof.
  unfold Recorder_WriteHeader, accepts, valid_status.
  destruct (wroteHeader rw) eqn:E; [eauto|].
  intros [?|[Hlo Hhi]]; [done|].
  destruct (code <? 100) eqn:E1; [lia|].
  destruct (999 <? code) eqn:E2; [lia|]. cbn. eauto.
Qed.

Lemma Recorder_Write_total rw data :
  exists rw', Recorder_Write rw data = Ok (rw', (Z.of_nat (length data), None)).
Proof.
  unfold Recorder_Write, Recorder_writeHeader, Recorder_WriteHeader.
  destruct (wroteHeader rw) eqn:E; cbn; eauto.
Qed.

Lemma Sink_Write_recorder l rw rw' res data σ :
  sinks σ !! l = Some (RecorderSink rw) ->
  Recorder_Write rw data = Ok (rw', res) ->
  Sink_Write l data σ
  = Ok (res, mkWorld (<[l := RecorderSink rw']> (sinks σ))
                     (trace σ ++ [(l, CallWrite data)])).
Proof.
  intros Hs Hrw. unfold Sink_Write, bind, deref, log, lift, store, ret.
  rewrite Hs. cbn. by rewrite Hrw.
Qed.

Lemma Sink_Write_mock l m data σ :
  sinks σ !! l = Some (MockSink m) ->
  Sink_Write l data σ
  = Ok (mock_Write m (mock_writes m) data,
        mkWorld (<[l := MockSink (mkMock (mock_Header m) (mock_Write m)
                                         (S (mock_writes m)))]> (sinks σ))
                (trace σ ++ [(l, CallWrite data)])).
Proof.
  intros Hs. unfold Sink_Write, bind, deref, log, store, ret. by rewrite Hs.
Qed.

End WriterFacts.

Section WriterCalls.
Context `{GoStdlib}.

(** *** [WriteHeader] on a writer *)

Lemma accepts_at_insert σ tr code l s l' :
  accepts code s ->
  accepts_at σ code l' ->
  accepts_at (mkWorld (<[l := s]> (sinks σ)) tr) code l'.
Proof.
  intros Hs (s' & Hs' & Hok'). unfold accepts_at. cbn.
  destruct (decide (l = l')) as [->|Hne].
  - exists s. split; [|done]. apply list_lookup_insert_eq.
    by eapply lookup_lt_Some.
  - exists s'. split; [|done]. by rewrite list_lookup_insert_ne.
Qed.

Lemma WriteHeader_calls (w : ResponseWriter) (code : Z) :
  forall σ,
    Forall (accepts_at σ code) (leaves w) ->
    exists σ',
      ResponseWriter_WriteHeader w code σ = Ok (tt, σ')
      /\ trace σ' = trace σ ++ map (fun l => (l, CallWriteHeader code)) (leaves w)
      /\ frame (leaves w) σ σ'
      /\ (forall l, accepts_at σ code l -> accepts_at σ' code l).
Proof.
  induction w as [l|targets IH] using ResponseWriter_targets_ind; intros σ Hacc.
  - cbn in Hacc. apply Forall_cons in Hacc as [(s & Hs & Hok) _].
    cbn [ResponseWriter_WriteHeader leaves map].
    destruct s as [rw|m].
    + destruct (Recorder_WriteHeader_accepts rw code Hok) as (rw' & Hrw & Hw).
      eexists. split; [by eapply Sink_WriteHeader_recorder|].
      cbn. split; [done|]. split; [apply frame_store|].
      intros l'. apply accepts_at_insert. cbn. by left.
    + eexists. split; [by eapply Sink_WriteHeader_mock|].
      cbn. split; [done|]. split; [apply frame_log|].
      intros l' Hl'. exact Hl'.
  - cbn [ResponseWriter_WriteHeader leaves]. revert σ Hacc.
    induction IH as [|t ts Ht _ IHts]; intros σ Hacc.
    + cbn. exists σ. split; [done|]. rewrite app_nil_r.
      split; [done|]. split; [apply frame_refl|done].
    + cbn [flat_map] in *. apply Forall_app in Hacc as [Hacc1 Hacc2].
      destruct (Ht σ Hacc1) as (σ1 & E1 & Htr1 & Hf1 & Hmono1).
      rewrite for_each_cons, (bind_Ok _ _ _ _ _ E1).
      destruct (IHts σ1) as (σ2 & E2 & Htr2 & Hf2 & Hmono2).
      { eapply Forall_impl; [exact Hacc2|]. exact Hmono1. }
      exists σ2. split; [exact E2|].
      split; [by rewrite Htr2, Htr1, map_app, app_assoc|].
      split; [by eapply frame_trans|]. auto.
Qed.

(** A code in range is accepted by every object in the store. *)
Lemma valid_status_accepts σ code n w :
  valid_status code -> length (sinks σ) = n -> wf_writer n w ->
  Forall (accepts_at σ code) (leaves w).
Proof.
  intros Hv Hlen Hwf. eapply Forall_impl; [exact Hwf|].
  intros l Hl. cbn in Hl.
  destruct (lookup_lt_is_Some_2 (sinks σ) l) as [s Hs]; [lia|].
  exists s. split; [done|]. destruct s; cbn; auto.
Qed.

(** *** [Header] on a writer *)

Lemma Header_calls (w : ResponseWriter) :
  forall σ,
    wf_writer (length (sinks σ)) w ->
    exists h tr,
      ResponseWriter_Header w σ = Ok (h, mkWorld (sinks σ) tr)
      /\ (h = None \/ exists l, h = Some l /\ l ∈ leaves w).
Proof.
  induction w as [l|targets IH] using ResponseWriter_targets_ind; intros σ Hwf.
  - apply Forall_cons in Hwf as [Hl _].
    destruct (lookup_lt_is_Some_2 (sinks σ) l) as [s Hs]; [done|].
    eexists _, _. split; [by eapply Sink_Header_eq|].
    right. exists l. split; [done|]. cbn. set_solver.
  - destruct IH as [|t ts Ht _].
    + exists None, (trace σ). split; [by destruct σ|by left].
    + unfold wf_writer in Hwf. cbn [leaves flat_map] in Hwf.
      apply Forall_app in Hwf as [Hwf1 _].
      destruct (Ht σ Hwf1) as (h & tr & E & Hh).
      exists h, tr. split; [exact E|].
      destruct Hh as [->|(l & -> & Hl)]; [by left|].
      right. exists l. split; [done|]. cbn [leaves flat_map]. set_solver.
Qed.

(** [target.Header().Add(key, value)], the body of the loop of
    [headersAdd]. *)
Lemma header_mutation_frame (w : ResponseWriter) (f : Header.t -> Header.t) σ :
  wf_writer (length (sinks σ)) w ->
  exists σ',
    bind (ResponseWriter_Header w) (fun h => Header_update h f) σ = Ok (tt, σ')
    /\ frame (leaves w) σ σ'.
Proof.
  intros Hwf. destruct (Header_calls w σ Hwf) as (h & tr & E & Hh).
  rewrite (bind_Ok _ _ _ _ _ E).
  destruct Hh as [->|(l & -> & Hl)].
  - eexists. split; [reflexivity|]. apply frame_log.
  - assert (Hlt : (l < length (sinks σ))%nat).
    { unfold wf_writer in Hwf. rewrite Forall_forall in Hwf. by apply Hwf. }
    destruct (lookup_lt_is_Some_2 (sinks σ) l) as [s Hs]; [done|].
    eexists. split.
    { apply (Header_update_eq l s f (mkWorld (sinks σ) tr)). exact Hs. }
    eapply frame_mono; [|apply (frame_store l _ σ)].
    intros l' Hl'. apply list_elem_of_singleton in Hl'. by subst.
Qed.

(** *** [Write] on a writer *)

Lemma Write_calls (w : ResponseWriter) (data : bytes) :
  forall σ,
    wf_writer (length (sinks σ)) w ->
    exists res σ' calls,
      ResponseWriter_Write w data σ = Ok (res, σ')
      /\ frame (leaves w) σ σ'
      /\ trace σ' = trace σ ++ calls.
Proof.
  induction w as [l|targets IH] using ResponseWriter_targets_ind; intros σ Hwf.
  - apply Forall_cons in Hwf as [Hl _].
    destruct (lookup_lt_is_Some_2 (sinks σ) l) as [[rw|m] Hs]; [done| |].
    + destruct (Recorder_Write_total rw data) as (rw' & Hrw).
      eexists _, _, _. split; [by eapply Sink_Write_recorder|].
      split; [apply frame_store|done].
    + eexists _, _, _. split; [by eapply Sink_Write_mock|].
      split; [apply frame_store|done].
  - cbn [ResponseWriter_Write leaves].
    generalize (0, @None error). revert σ Hwf.
    induction IH as [|t ts Ht _ IHts]; intros σ Hwf res0.
    + exists res0, σ, []. split; [done|]. split; [apply frame_refl|].
      by rewrite app_nil_r.
    + unfold wf_writer in Hwf. cbn [leaves flat_map] in Hwf.
      apply Forall_app in Hwf as [Hwf1 Hwf2].
      destruct (Ht σ Hwf1) as (res1 & σ1 & calls1 & E1 & Hf1 & Htr1).
      rewrite write_each_cons, (bind_Ok _ _ _ _ _ E1).
      destruct (res1.2) eqn:Eres.
      * exists res1, σ1, calls1. split; [done|]. split; [|done].
        eapply frame_mono; [|exact Hf1]. cbn [flat_map].
        intros l Hl. apply elem_of_app. by left.
      * assert (Hwf' : wf_writer (length (sinks σ1)) (MultiTarget ts)).
        { unfold wf_writer. cbn [leaves]. destruct Hf1 as [-> _]. exact Hwf2. }
        destruct (IHts σ1 Hwf' res1) as (res2 & σ2 & calls2 & E2 & Hf2 & Htr2).
        exists res2, σ2, (calls1 ++ calls2). split; [apply E2|].
        cbn [flat_map]. split; [by eapply frame_trans|].
        by rewrite Htr2, Htr1, app_assoc.
Qed.

End WriterCalls.

(** ** The multi-target response writer *)

Section MultiTarget.
Context `{GoStdlib}.

Lemma leaves_sinks (ls : list nat) : flat_map leaves (map SinkAt ls) = ls.
Proof. induction ls as [|l ls IH]; cbn; [done|]. by rewrite IH. Qed.

(** The loop of [Write], for any kind of target and any invariant [P] of
    the store that the writes keep. *)
Lemma write_each_first_failure {A : Type} (write : A -> M (Z * option error))
  (P : World -> Prop) (xs : list A) :
  Forall (fun x => forall σ, P σ ->
            exists res σ', write x σ = Ok (res, σ') /\ P σ') xs ->
  forall res0 σ, P σ ->
    exists res σ',
      write_each write res0 xs σ = Ok (res, σ')
      /\ ((xs = [] /\ res = res0 /\ σ' = σ)
          \/ (exists before last n σ1,
                xs = before ++ [last] /\ writes_ok write before σ σ1
                /\ write last σ1 = Ok ((n, None), σ') /\ res = (n, None))
          \/ (exists before failing after n e σ1,
                xs = before ++ failing :: after /\ writes_ok write before σ σ1
                /\ write failing σ1 = Ok ((n, Some e), σ')
                /\ res = (n, Some e))).
Proof.
  induction 1 as [|x xs Hx _ IH]; intros res0 σ HP.
  - exists res0, σ. split; [done|]. by left.
  - destruct (Hx σ HP) as ([n err] & σ1 & E1 & HP1).
    rewrite write_each_cons, (bind_Ok _ _ _ _ _ E1). cbn [snd].
    destruct err as [e|].
    + exists (n, Some e), σ1. split; [done|]. right; right.
      exists [], x, xs, n, e, σ. repeat split; [constructor|done].
    + destruct (IH (n, None) σ1 HP1) as (res & σ2 & E2 & Hcases).
      exists res, σ2. split; [exact E2|]. right.
      destruct Hcases as [(-> & -> & ->)
                         |[(before & last & m & σ' & -> & Hok & El & ->)
                          |(before & failing & after & m & e & σ' & -> & Hok
                            & Ef & ->)]].
      * left. exists [], x, n, σ. repeat split; [constructor|done].
      * left. exists (x :: before), last, m, σ'.
        repeat split; [by econstructor|done].
      * right. exists (x :: before), failing, after, m, e, σ'.
        repeat split; [by econstructor|done].
Qed.

(** The calls of the loop of [Write] when the targets are stored objects:
    one call on each of the first [k] of them, and all of them unless a
    failure is returned. *)
Lemma write_each_sinks_trace (data : bytes) (ls : list nat) :
  forall res0 σ,
    res0.2 = None ->
    Forall (fun l => (l < length (sinks σ))%nat) ls ->
    exists k res σ',
      write_each (fun target => ResponseWriter_Write target data) res0
                 (map SinkAt ls) σ = Ok (res, σ')
      /\ trace σ' = trace σ ++ map (fun l => (l, CallWrite data)) (take k ls)
      /\ (k <= length ls)%nat
      /\ (res.2 = None -> k = length ls)
      /\ (is_Some res.2 -> (0 < k)%nat).
Proof.
  induction ls as [|l ls IH]; intros res0 σ Hres0 Hwf.
  - exists 0%nat, res0, σ. cbn. rewrite app_nil_r.
    repeat split; [lia|]. rewrite Hres0. by intros [e He].
  - apply Forall_cons in Hwf as [Hl Hwf].
    assert (exists res1 σ1,
              Sink_Write l data σ = Ok (res1, σ1)
              /\ trace σ1 = trace σ ++ [(l, CallWrite data)]
              /\ length (sinks σ1) = length (sinks σ))
      as (res1 & σ1 & E1 & Htr1 & Hlen1).
    { destruct (lookup_lt_is_Some_2 (sinks σ) l) as [[rw|m] Hs]; [done| |].
      - destruct (Recorder_Write_total rw data) as (rw' & Hrw).
        eexists _, _. split; [by eapply Sink_Write_recorder|].
        cbn. split; [done|apply length_insert].
      - eexists _, _. split; [by eapply Sink_Write_mock|].
        cbn. split; [done|apply length_insert]. }
    cbn [map]. rewrite write_each_cons.
    cbn [ResponseWriter_Write]. rewrite (bind_Ok _ _ _ _ _ E1).
    destruct (res1.2) as [e|] eqn:Eres.
    + exists 1%nat, res1, σ1. split; [done|]. cbn [take]. rewrite take_0.
      split; [exact Htr1|]. split; [cbn; lia|].
      rewrite Eres. split; [done|]. intros _. lia.
    + destruct (IH res1 σ1 Eres) as (k & res & σ2 & E2 & Htr2 & Hk & Hall & Hpos).
      { by rewrite Hlen1. }
      exists (S k), res, σ2. split; [exact E2|]. cbn [take map length].
      split; [by rewrite Htr2, Htr1, <- app_assoc|].
      split; [lia|]. split; [|intros _; lia].
      intros Hnone. by rewrite (Hall Hnone).
Qed.

(** C5. [Write] on a multi-target writer whose pointers are valid
    returns, and its result and final store are those of the contract
    [first_failure_wins]: [(0, nil)] and an untouched store without
    targets; the last target's result when every write succeeds; the
    result and the store left by the first failing target otherwise, the
    targets after it not being written to.  When the targets are stored
    objects [ls], the calls made are one [Write(data)] on each of the
    first [k] of them, in order, with [k] the whole list when no failure
    is returned. *)
Theorem Write_first_failure_wins (targets : list ResponseWriter) (data : bytes)
  (σ : World) :
  wf_writer (length (sinks σ)) (MultiTarget targets) ->
  exists res σ',
    ResponseWriter_Write (MultiTarget targets) data σ = Ok (res, σ')
    /\ first_failure_wins (fun target => ResponseWriter_Write target data)
                          targets σ res σ'
    /\ (forall ls, targets = map SinkAt ls ->
          exists k,
            trace σ' = trace σ ++ map (fun l => (l, CallWrite data)) (take k ls)
            /\ (k <= length ls)%nat
            /\ (res.2 = None -> k = length ls)
            /\ (is_Some res.2 -> (0 < k)%nat)).
Proof.
  intros Hwf. cbn [ResponseWriter_Write].
  destruct (write_each_first_failure
              (fun target => ResponseWriter_Write target data)
              (fun σ' => length (sinks σ') = length (sinks σ)) targets)
    with (res0 := (0, @None error)) (σ := σ)
    as (res & σ' & E & Hcases); [|done|].
  { unfold wf_writer in Hwf. cbn [leaves] in Hwf.
    clear -Hwf. induction targets as [|t ts IH]; [constructor|].
    cbn [flat_map] in Hwf. apply Forall_app in Hwf as [Ht Hts].
    constructor; [|by apply IH].
    intros σ1 Hlen. rewrite <- Hlen in Ht.
    destruct (Write_calls t data σ1 Ht) as (res & σ2 & calls & E & [Hlen2 _] & _).
    exists res, σ2. split; [done|congruence]. }
  exists res, σ'. split; [exact E|]. split.
  - destruct Hcases as [(-> & -> & ->)|[Hlast|Hfail]];
      [by left|right; by left|right; by right].
  - intros ls ->.
    destruct (write_each_sinks_trace data ls (0, None) σ)
      as (k & res' & σ'' & E' & Htr & Hk & Hall & Hpos); [done| |].
    { unfold wf_writer in Hwf. cbn [leaves] in Hwf.
      by rewrite leaves_sinks in Hwf. }
    rewrite E in E'. injection E' as <- <-. by exists k.
Qed.

(** C9. [WriteHeader] on a multi-target writer, on a store where no
    target panics on the code (a mock, a recorder with a status already
    written, or a code in 100..999), returns, and the calls it makes are
    one [WriteHeader(statusCode)] on each object its targets reach, in the
    order of the targets, whatever the state of the objects: for targets
    that are stored objects [ls], one call on each of [ls], in order. *)
Theorem WriteHeader_every_target (targets : list ResponseWriter)
  (statusCode : Z) (σ : World) :
  Forall (accepts_at σ statusCode) (leaves (MultiTarget targets)) ->
  exists σ',
    ResponseWriter_WriteHeader (MultiTarget targets) statusCode σ = Ok (tt, σ')
    /\ trace σ'
       = trace σ ++ map (fun l => (l, CallWriteHeader statusCode))
                        (flat_map leaves targets)
    /\ (forall ls, targets = map SinkAt ls ->
          trace σ' = trace σ ++ map (fun l => (l, CallWriteHeader statusCode)) ls).
Proof.
  intros Hacc.
  destruct (WriteHeader_calls (MultiTarget targets) statusCode σ Hacc)
    as (σ' & E & Htr & _ & _).
  exists σ'. split; [exact E|]. split; [exact Htr|].
  intros ls ->. cbn [leaves] in Htr. by rewrite leaves_sinks in Htr.
Qed.

End MultiTarget.

(** ** The handler and its recorder *)

Lemma wf_writer_mono n m w : wf_writer n w -> (n <= m)%nat -> wf_writer m w.
Proof.
  intros Hwf Hle. eapply Forall_impl; [exact Hwf|]. cbn. intros; lia.
Qed.

Lemma wf_writer_fresh n w : wf_writer n w -> n ∉ leaves w.
Proof.
  intros Hwf Hin. unfold wf_writer in Hwf. rewrite Forall_forall in Hwf.
  specialize (Hwf n Hin). cbn in Hwf. lia.
Qed.

Lemma holds_recorder_frame n rw ls σ σ' :
  holds_recorder n rw σ -> frame ls σ σ' -> n ∉ ls -> holds_recorder n rw σ'.
Proof.
  intros [Hlen Hrw] [Hlen' Hf] Hn. split; [congruence|].
  by rewrite Hf.
Qed.

Lemma holds_recorder_store n rw rw' σ tr :
  holds_recorder n rw σ ->
  holds_recorder n rw' (mkWorld (<[n := RecorderSink rw']> (sinks σ)) tr).
Proof.
  intros [Hlen Hrw]. split; cbn.
  - by rewrite length_insert.
  - apply list_lookup_insert_eq. lia.
Qed.

Section HandlerStages.
Context `{GoStdlib}.

Lemma Recorder_WriteHeader_valid rw code :
  valid_status code -> Recorder_WriteHeader rw code = Ok (with_status rw code).
Proof.
  intros [Hlo Hhi]. unfold Recorder_WriteHeader, with_status.
  destruct (wroteHeader rw); [done|].
  destruct (code <? 100) eqn:E1; [lia|].
  destruct (999 <? code) eqn:E2; [lia|]. done.
Qed.

Lemma Recorder_Write_after_status rw data :
  wroteHeader rw = true ->
  Recorder_Write rw data
  = Ok (with_written rw data, (Z.of_nat (length data), None)).
Proof.
  intros Hw. unfold Recorder_Write, Recorder_writeHeader. by rewrite Hw.
Qed.

(** [mw.headersAdd(key, value)] in the handler. *)
Lemma headersAdd_recorder n rw w key value σ :
  holds_recorder n rw σ -> wf_writer n w ->
  exists σ',
    headersAdd [SinkAt n; w] key value σ = Ok (tt, σ')
    /\ holds_recorder n (with_HeaderMap rw (Header.Add (HeaderMap rw) key value)) σ'
    /\ frame (n :: leaves w) σ σ'.
Proof.
  intros Hrec Hwf. pose proof Hrec as [Hlen Hrw].
  unfold headersAdd. rewrite for_each_cons.
  set (f := fun m : Header.t => Header.Add m key value).
  set (σ1 := mkWorld (<[n := RecorderSink (with_HeaderMap rw (f (HeaderMap rw)))]>
                        (sinks σ))
                     (trace σ ++ [(n, CallHeader)])).
  assert (E1 : bind (ResponseWriter_Header (SinkAt n))
                    (fun h => Header_update h f) σ = Ok (tt, σ1)).
  { cbn [ResponseWriter_Header].
    rewrite (bind_Ok _ _ _ _ _ (Sink_Header_eq n _ σ Hrw)).
    by rewrite (Header_update_eq n (RecorderSink rw)). }
  rewrite (bind_Ok _ _ _ _ _ E1), for_each_cons.
  assert (Hrec1 : holds_recorder n (with_HeaderMap rw (f (HeaderMap rw))) σ1)
    by (apply (holds_recorder_store n rw); exact Hrec).
  destruct (header_mutation_frame w f σ1) as (σ2 & E2 & Hf2).
  { eapply wf_writer_mono; [exact Hwf|]. destruct Hrec1 as [-> _]. lia. }
  rewrite (bind_Ok _ _ _ _ _ E2). exists σ2. split; [done|]. split.
  - eapply holds_recorder_frame; [exact Hrec1|exact Hf2|].
    by apply wf_writer_fresh.
  - change (n :: leaves w) with ([n] ++ leaves w).
    eapply frame_trans; [|exact Hf2]. apply frame_store.
Qed.

(** The header loop of the handler. *)
Lemma header_loop_recorder n w (hs : list (string * list string)) :
  wf_writer n w ->
  forall rw σ,
    holds_recorder n rw σ ->
    exists σ',
      for_each (fun '(header, values) =>
                  for_each (fun value => headersAdd [SinkAt n; w] header value)
                           values) hs σ = Ok (tt, σ')
      /\ holds_recorder n (with_HeaderMap rw (add_headers hs (HeaderMap rw))) σ'
      /\ frame (n :: leaves w) σ σ'
      /\ (hs = [] -> σ' = σ).
Proof.
  intros Hwf.
  assert (Hinner : forall key values rw σ,
            holds_recorder n rw σ ->
            exists σ',
              for_each (fun value => headersAdd [SinkAt n; w] key value)
                       values σ = Ok (tt, σ')
              /\ holds_recorder n
                   (with_HeaderMap rw
                      (fold_left (fun m value => Header.Add m key value)
                                 values (HeaderMap rw))) σ'
              /\ frame (n :: leaves w) σ σ').
  { intros key values. induction values as [|v vs IH]; intros rw σ Hrec.
    - exists σ. split; [done|]. split; [by destruct rw|apply frame_refl].
    - destruct (headersAdd_recorder n rw w key v σ Hrec Hwf)
        as (σ1 & E1 & Hrec1 & Hf1).
      rewrite for_each_cons, (bind_Ok _ _ _ _ _ E1).
      edestruct IH as (σ2 & E2 & Hrec2 & Hf2); [exact Hrec1|].
      exists σ2. split; [exact E2|]. split; [exact Hrec2|].
      by eapply frame_twice. }
  induction hs as [|[key values] hs IH]; intros rw σ Hrec.
  - exists σ. split; [done|]. split; [by destruct rw|].
    split; [apply frame_refl|done].
  - destruct (Hinner key values rw σ Hrec) as (σ1 & E1 & Hrec1 & Hf1).
    rewrite for_each_cons, (bind_Ok _ _ _ _ _ E1).
    edestruct IH as (σ2 & E2 & Hrec2 & Hf2 & _); [exact Hrec1|].
    exists σ2. split; [exact E2|]. split; [exact Hrec2|].
    split; [|done]. by eapply frame_twice.
Qed.

End HandlerStages.

Section HandlerSteps.
Context `{GoStdlib}.

Lemma with_status_wroteHeader rw code : wroteHeader (with_status rw code) = true.
Proof. unfold with_status. by destruct (wroteHeader rw) eqn:E. Qed.

(** [mw.WriteHeader(code)] in the handler. *)
Lemma WriteHeader_recorder n rw w code σ :
  holds_recorder n rw σ -> wf_writer n w -> valid_status code ->
  exists σ',
    ResponseWriter_WriteHeader (MultiTarget [SinkAt n; w]) code σ = Ok (tt, σ')
    /\ holds_recorder n (with_status rw code) σ'
    /\ frame (n :: leaves w) σ σ'
    /\ trace σ'
       = trace σ ++ map (fun l => (l, CallWriteHeader code)) (n :: leaves w).
Proof.
  intros Hrec Hwf Hv. pose proof Hrec as [Hlen Hrw].
  cbn [ResponseWriter_WriteHeader]. rewrite for_each_cons.
  set (σ1 := mkWorld (<[n := RecorderSink (with_status rw code)]> (sinks σ))
                     (trace σ ++ [(n, CallWriteHeader code)])).
  assert (E1 : ResponseWriter_WriteHeader (SinkAt n) code σ = Ok (tt, σ1)).
  { cbn [ResponseWriter_WriteHeader].
    eapply Sink_WriteHeader_recorder; [exact Hrw|].
    by apply Recorder_WriteHeader_valid. }
  rewrite (bind_Ok _ _ _ _ _ E1), for_each_cons.
  assert (Hrec1 : holds_recorder n (with_status rw code) σ1)
    by (apply (holds_recorder_store n rw); exact Hrec).
  destruct (WriteHeader_calls w code σ1) as (σ2 & E2 & Htr2 & Hf2 & _).
  { eapply (valid_status_accepts _ _ (S n)); [done|by destruct Hrec1|].
    eapply wf_writer_mono; [exact Hwf|lia]. }
  rewrite (bind_Ok _ _ _ _ _ E2). exists σ2. split; [done|]. split.
  - eapply holds_recorder_frame; [exact Hrec1|exact Hf2|].
    by apply wf_writer_fresh.
  - split.
    + change (n :: leaves w) with ([n] ++ leaves w).
      eapply frame_trans; [|exact Hf2]. apply frame_store.
    + rewrite Htr2. cbn. by rewrite <- app_assoc.
Qed.

(** [mw.Write(data)] in the handler, after the status. *)
Lemma Write_recorder n rw w data σ :
  holds_recorder n rw σ -> wf_writer n w -> wroteHeader rw = true ->
  exists res σ' calls,
    ResponseWriter_Write (MultiTarget [SinkAt n; w]) data σ = Ok (res, σ')
    /\ holds_recorder n (with_written rw data) σ'
    /\ frame (n :: leaves w) σ σ'
    /\ trace σ' = trace σ ++ (n, CallWrite data) :: calls.
Proof.
  intros Hrec Hwf Hw. pose proof Hrec as [Hlen Hrw].
  cbn [ResponseWriter_Write]. rewrite write_each_cons.
  set (σ1 := mkWorld (<[n := RecorderSink (with_written rw data)]> (sinks σ))
                     (trace σ ++ [(n, CallWrite data)])).
  assert (E1 : ResponseWriter_Write (SinkAt n) data σ
               = Ok ((Z.of_nat (length data), None), σ1)).
  { cbn [ResponseWriter_Write].
    eapply Sink_Write_recorder; [exact Hrw|].
    by apply Recorder_Write_after_status. }
  rewrite (bind_Ok _ _ _ _ _ E1). cbn [snd]. rewrite write_each_cons.
  assert (Hrec1 : holds_recorder n (with_written rw data) σ1)
    by (apply (holds_recorder_store n rw); exact Hrec).
  destruct (Write_calls w data σ1) as (res & σ2 & calls & E2 & Hf2 & Htr2).
  { eapply wf_writer_mono; [exact Hwf|]. destruct Hrec1 as [-> _]. lia. }
  rewrite (bind_Ok _ _ _ _ _ E2).
  exists res, σ2, calls. split; [by destruct (res.2)|]. split.
  - eapply holds_recorder_frame; [exact Hrec1|exact Hf2|].
    by apply wf_writer_fresh.
  - split.
    + change (n :: leaves w) with ([n] ++ leaves w).
      eapply frame_trans; [|exact Hf2]. apply frame_store.
    + rewrite Htr2. cbn. by rewrite <- app_assoc.
Qed.

(** [srv.handleInternalError(mw, serverRecord, err)] in the handler. *)
Lemma handleInternalError_recorder srv n rw w serverRecord err σ :
  holds_recorder n rw σ -> wf_writer n w ->
  exists σ' calls,
    handleInternalError srv (MultiTarget [SinkAt n; w]) serverRecord err σ
    = Ok (mkHTTPTestServer
            (responses srv)
            (records srv
               ++ [mkServerRecord (Request serverRecord) (Response serverRecord)
                                  (RequestBody serverRecord) (Some err)]),
          σ')
    /\ holds_recorder n (recorder_after_error rw err) σ'
    /\ frame (n :: leaves w) σ σ'
    /\ trace σ' = trace σ ++ error_calls n w err ++ calls.
Proof.
  intros Hrec Hwf. pose proof Hrec as [Hlen Hrw].
  unfold handleInternalError. cbn [ResponseWriter_Header].
  rewrite (bind_Ok _ _ _ _ _ (Sink_Header_eq n _ σ Hrw)).
  set (rw1 := with_HeaderMap rw (Header.Set_ (HeaderMap rw) "Content-Type"
                                             "text/plain")).
  set (σ1 := mkWorld (<[n := RecorderSink rw1]> (sinks σ))
                     (trace σ ++ [(n, CallHeader)])).
  assert (E1 : Header_update (Some n)
                 (fun m => Header.Set_ m "Content-Type" "text/plain")
                 (mkWorld (sinks σ) (trace σ ++ [(n, CallHeader)]))
               = Ok (tt, σ1)).
  { by rewrite (Header_update_eq n (RecorderSink rw)). }
  rewrite (bind_Ok _ _ _ _ _ E1).
  assert (Hrec1 : holds_recorder n rw1 σ1)
    by (apply (holds_recorder_store n rw); exact Hrec).
  destruct (WriteHeader_recorder n rw1 w 500 σ1 Hrec1 Hwf)
    as (σ2 & E2 & Hrec2 & Hf2 & Htr2); [by unfold valid_status|].
  rewrite (bind_Ok _ _ _ _ _ E2).
  destruct (Write_recorder n _ w (bytes_of_string (Error err)) σ2 Hrec2 Hwf)
    as (res & σ3 & calls & E3 & Hrec3 & Hf3 & Htr3);
    [apply with_status_wroteHeader|].
  rewrite (bind_Ok _ _ _ _ _ E3).
  exists σ3, calls. split; [done|]. split; [exact Hrec3|]. split.
  - eapply frame_twice; [|exact Hf3]. eapply frame_twice; [|exact Hf2].
    eapply frame_mono; [|apply (frame_store n _ σ)].
    intros l Hl. apply list_elem_of_singleton in Hl. subst.
    apply elem_of_cons. by left.
  - rewrite Htr3, Htr2. unfold error_calls. cbn [trace σ1].
    rewrite <- !app_assoc. cbn [app]. by rewrite <- !app_assoc.
Qed.

End HandlerSteps.

Section HandlerCases.
Context `{GoStdlib}.

Lemma grows_alloc n w s σ σ' :
  length (sinks σ) = n ->
  frame (n :: leaves w) (mkWorld (sinks σ ++ [s]) (trace σ)) σ' ->
  grows n (leaves w) σ σ'.
Proof.
  intros Hn [Hlen Hf]. split.
  - rewrite Hlen. cbn. rewrite length_app. cbn. lia.
  - intros l Hl Hnot. rewrite Hf.
    + cbn. apply lookup_app_l. lia.
    + intros Hin. apply elem_of_cons in Hin as [->|Hin]; [lia|done].
Qed.

(** The handler, case by case on what reading and parsing the request
    give. *)
Lemma ServeHTTP_cases (srv : HTTPTestServer) (w : ResponseWriter)
  (r : http_Request) (σ : World) :
  wf_writer (length (sinks σ)) w ->
  match read_and_parse r with
  | Panic msg => ServeHTTP srv w r σ = Panic msg
  | Ok (r', Some werr) =>
      exists σ' calls,
        ServeHTTP srv w r σ
        = Ok (mkHTTPTestServer
                (responses srv)
                (records srv
                   ++ [mkServerRecord (Some r') (Some (length (sinks σ)))
                                      (tee_buffer r') (Some werr)]),
              σ')
        /\ holds_recorder (length (sinks σ)) (failed_recorder werr) σ'
        /\ grows (length (sinks σ)) (leaves w) σ σ'
        /\ trace σ' = trace σ ++ error_calls (length (sinks σ)) w werr ++ calls
  | Ok (r', None) =>
      valid_status (Status (ServeHTTP_response srv).1) ->
      exists werr σ',
        ServeHTTP srv w r σ
        = Ok (mkHTTPTestServer
                (responses (ServeHTTP_response srv).2)
                (records srv
                   ++ [mkServerRecord (Some r') (Some (length (sinks σ)))
                                      (tee_buffer r') werr]),
              σ')
        /\ holds_recorder (length (sinks σ))
                          (served_recorder (ServeHTTP_response srv).1 werr) σ'
        /\ grows (length (sinks σ)) (leaves w) σ σ'
        /\ (forall e, werr = Some e ->
              Body (ServeHTTP_response srv).1 <> []
              /\ (exists cause, e = Errorf_w write_failure_prefix cause)
              /\ exists before calls,
                   trace σ'
                   = before ++ error_calls (length (sinks σ)) w e ++ calls)
        /\ (Body (ServeHTTP_response srv).1 = [] -> werr = None)
        /\ (Headers (ServeHTTP_response srv).1 = [] ->
            Body (ServeHTTP_response srv).1 = [] ->
            trace σ'
            = trace σ
              ++ map (fun l => (l, CallWriteHeader
                                     (Status (ServeHTTP_response srv).1)))
                     (length (sinks σ) :: leaves w))
  end.
Proof.
  intros Hwf. set (n := length (sinks σ)).
  set (σ1 := mkWorld (sinks σ ++ [RecorderSink NewRecorder]) (trace σ)).
  assert (Hrec1 : holds_recorder n NewRecorder σ1).
  { split; cbn.
    - rewrite length_app. cbn. lia.
    - by apply list_lookup_middle. }
  assert (Halloc : alloc (RecorderSink NewRecorder) σ = Ok (n, σ1)) by done.
  unfold ServeHTTP. rewrite (bind_Ok _ _ _ _ _ Halloc).
  change (newMultiTargetHTTPResponseWriter [SinkAt n; w])
    with (MultiTarget [SinkAt n; w]).
  unfold read_and_parse.
  destruct (ServeHTTP_readBody r) as [[r1 [err|]]|msg]; cbn [lift bind].
  - (* the body read fails *)
    destruct (handleInternalError_recorder srv n NewRecorder w
                (mkServerRecord (Some r1) (Some n) (tee_buffer r1) None)
                (Errorf_w "test server failed to read the request body: " err)
                σ1 Hrec1 Hwf) as (σ' & calls & E & Hrec & Hf & Htr).
    exists σ', calls. split; [exact E|]. split; [exact Hrec|].
    split; [by eapply grows_alloc|exact Htr].
  - destruct (ParseForm r1) as [[r2 [err|]]|msg]; cbn [lift bind].
    + (* the form parsing fails *)
      destruct (handleInternalError_recorder srv n NewRecorder w
                  (mkServerRecord (Some r2) (Some n) (tee_buffer r2) None)
                  (Errorf_w
                     "test server failed to parse query string and form data: "
                     err)
                  σ1 Hrec1 Hwf) as (σ' & calls & E & Hrec & Hf & Htr).
      exists σ', calls. split; [exact E|]. split; [exact Hrec|].
      split; [by eapply grows_alloc|exact Htr].
    + (* a response is picked *)
      destruct (ServeHTTP_response srv) as [resp srv1] eqn:Esel.
      cbn [fst snd]. intros Hv.
      assert (Hrecs : records srv1 = records srv).
      { unfold ServeHTTP_response in Esel. injection Esel as _ <-.
        by destruct (1 <? length (responses srv))%nat. }
      destruct (header_loop_recorder n w (Headers resp) Hwf NewRecorder σ1 Hrec1)
        as (σ2 & E2 & Hrec2 & Hf2 & Hnil2).
      rewrite (bind_Ok _ _ _ _ _ E2).
      destruct (WriteHeader_recorder n _ w (Status resp) σ2 Hrec2 Hwf Hv)
        as (σ3 & E3 & Hrec3 & Hf3 & Htr3).
      rewrite (bind_Ok _ _ _ _ _ E3).
      pose proof (frame_twice _ _ _ _ Hf2 Hf3) as Hf13.
      destruct (Body resp) as [|b body] eqn:Ebody.
      * (* no body to write *)
        cbn [length Nat.ltb Nat.leb bind ret].
        exists None, σ3. split; [by rewrite Hrecs|]. split.
        { unfold served_recorder. rewrite Ebody. exact Hrec3. }
        split; [by eapply grows_alloc|].
        split; [done|]. split; [done|].
        intros Hhs _. rewrite Htr3. by rewrite (Hnil2 Hhs).
      * (* the body is written *)
        destruct (Write_recorder n _ w (b :: body) σ3 Hrec3 Hwf)
          as ([k werr] & σ4 & calls4 & E4 & Hrec4 & Hf4 & _);
          [apply with_status_wroteHeader|].
        pose proof (frame_twice _ _ _ _ Hf13 Hf4) as Hf14.
        change (0 <? length (b :: body))%nat with true. cbn iota.
        rewrite (bind_Ok _ _ _ _ _ (bind_Ok _ (fun x => let '(_, err) := x in ret err)
                                             _ _ _ E4)).
        cbn [ret].
        destruct werr as [cause|].
        -- destruct (handleInternalError_recorder srv1 n _ w
                       (mkServerRecord (Some r2) (Some n) (tee_buffer r2) None)
                       (Errorf_w write_failure_prefix cause) σ4 Hrec4 Hwf)
             as (σ5 & calls5 & E5 & Hrec5 & Hf5 & Htr5).
           exists (Some (Errorf_w write_failure_prefix cause)), σ5.
           split.
           { etrans; [exact E5|]. cbn. by rewrite Hrecs. }
           split.
           { unfold served_recorder. rewrite Ebody. exact Hrec5. }
           split; [eapply grows_alloc; [done|by eapply frame_twice]|].
           split; [|split; [done|done]].
           intros e [= <-]. split; [done|]. split; [by exists cause|].
           by exists (trace σ4), calls5.
        -- exists None, σ4. split.
           { by rewrite Hrecs. }
           split.
           { unfold served_recorder. rewrite Ebody. exact Hrec4. }
           split; [by eapply grows_alloc|].
           split; [done|]. split; [done|done].
    + done.
  - done.
Qed.

End HandlerCases.

(** ** What a record shows *)

Lemma Result_served_recorder resp werr :
  valid_status (Status resp) ->
  Result (served_recorder resp werr) = response_of resp werr.
Proof.
  intros [Hlo Hhi]. unfold Result, served_recorder, response_of.
  destruct werr as [e|]; cbn.
  - destruct (Status resp =? 0) eqn:E; [lia|done].
  - destruct (Status resp =? 0) eqn:E; [lia|]. by rewrite app_nil_r.
Qed.

(** The failure a stage wraps is the cause of the error of the record,
    and its text follows the text of the stage. *)
Lemma Errorf_w_wraps prefix cause :
  Unwrap (Errorf_w prefix cause) = Some cause
  /\ Error (Errorf_w prefix cause) = prefix +:+ Error cause.
Proof. by split. Qed.

Lemma ServeHTTP_response_valid srv :
  Forall (fun resp => valid_status (Status resp)) (responses srv) ->
  valid_status (Status (ServeHTTP_response srv).1)
  /\ Forall (fun resp => valid_status (Status resp))
            (responses (ServeHTTP_response srv).2).
Proof.
  intros Hv. unfold ServeHTTP_response.
  destruct (responses srv) as [|a [|b rs]] eqn:E; cbn; rewrite ?E.
  - split; [by unfold valid_status|constructor].
  - apply Forall_cons in Hv as [Ha _]. split; [done|].
    by constructor.
  - apply Forall_cons in Hv as [Ha Hrs]. by split.
Qed.

Lemma ServeHTTP_response_empty srv :
  responses srv = [] ->
  ServeHTTP_response srv = (mkPredefinedServerResponse 404 [] [], srv).
Proof. intros E. unfold ServeHTTP_response. by rewrite E. Qed.

Section Requests.
Context `{GoStdlib}.

(** *** Reading does not panic on a readable body *)

Lemma ReadAll_readable limit rc :
  readable rc = true ->
  exists data err rc',
    ReadAll limit rc = Ok (data, err, rc') /\ readable rc' = true.
Proof.
  induction rc as [|pending fault|src IH buf]; intros Hr; [done| |].
  - cbn. destruct limit as [n|]; [|by eexists _, _, _].
    destruct (n <=? N.of_nat (length pending))%N; [|by eexists _, _, _].
    destruct (splitN n pending) as [data rest]. by eexists _, _, _.
  - destruct (IH Hr) as (data & err & src' & E & Hr').
    cbn. rewrite E. by eexists _, _, _.
Qed.

Lemma ServeHTTP_readBody_readable r :
  readable (ReqBody r) = true ->
  exists r1 err,
    ServeHTTP_readBody r = Ok (r1, err) /\ readable (ReqBody r1) = true.
Proof.
  intros Hr. unfold ServeHTTP_readBody.
  destruct (_ && _).
  - destruct (ReadAll_readable None (NopCloserTee (ReqBody r) []))
      as (data & err & rc' & E & Hr'); [done|].
    cbn [ReqBody set_Body]. cbn [ReqBody set_Body] in E. rewrite E.
    by eexists _, _.
  - by eexists _, _.
Qed.

Lemma ParseForm_readable r :
  readable (ReqBody r) = true -> exists r' err, ParseForm r = Ok (r', err).
Proof.
  intros Hr. unfold ParseForm.
  assert (Hstep : exists r1 e1,
            match PostForm r with
            | Some _ => Ok (r, None)
            | None =>
                match (if String.eqb (Method r) "POST"
                          || String.eqb (Method r) "PUT"
                          || String.eqb (Method r) "PATCH"
                       then parsePostForm r else Ok (r, None, None)) with
                | Panic msg => Panic msg
                | Ok (r', vs, err) =>
                    Ok (mkRequest (Method r') (RawQuery r') (ReqHeader r')
                                  (ReqBody r') (Some (default ∅ vs)) (Form r'),
                        err)
                end
            end = Ok (r1, e1)).
  { destruct (PostForm r); [by eexists _, _|].
    destruct (_ || _); [|by eexists _, _].
    unfold parsePostForm.
    destruct (ReqBody r) as [|pending fault|src buf] eqn:Ebody; [done| |].
    - destruct (mime_ParseMediaType _) as [ct err].
      destruct (String.eqb ct formContentType); [|by eexists _, _].
      destruct (ReadAll_readable (Some (maxFormSize + 1)%N) (Source pending fault))
        as (b & e & body' & E & _); [done|].
      rewrite E. destruct e; [by eexists _, _|].
      destruct (_ <? _)%N; [by eexists _, _|].
      destruct (URL.ParseQuery _). by eexists _, _.
    - destruct (mime_ParseMediaType _) as [ct err].
      destruct (String.eqb ct formContentType); [|by eexists _, _].
      destruct (ReadAll_readable (Some (maxFormSize + 1)%N) (NopCloserTee src buf))
        as (b & e & body' & E & _); [done|].
      rewrite E. destruct e; [by eexists _, _|].
      destruct (_ <? _)%N; [by eexists _, _|].
      destruct (URL.ParseQuery _). by eexists _, _. }
  destruct Hstep as (r1 & e1 & ->).
  destruct (Form r1); [by eexists _, _|].
  destruct (match RawQuery r1 with Some q => URL.ParseQuery q | None => _ end).
  by eexists _, _.
Qed.

Lemma read_and_parse_readable r :
  readable (ReqBody r) = true -> exists r' werr, read_and_parse r = Ok (r', werr).
Proof.
  intros Hr. unfold read_and_parse.
  destruct (ServeHTTP_readBody_readable r Hr) as (r1 & err & -> & Hr1).
  destruct err; [by eexists _, _|].
  destruct (ParseForm_readable r1 Hr1) as (r2 & err & ->).
  destruct err; by eexists _, _.
Qed.

End Requests.

(** ** The handler: records, failures, the empty queue *)

Section HandlerTheorems.
Context `{GoStdlib}.

(** The handler returns, with one record appended, on every request whose
    body can be read, with a writer whose pointers are valid and queued
    statuses that [WriteHeader] accepts. *)
Lemma ServeHTTP_returns (srv : HTTPTestServer) (w : ResponseWriter)
  (r : http_Request) (σ : World) :
  readable (ReqBody r) = true ->
  wf_writer (length (sinks σ)) w ->
  Forall (fun resp => valid_status (Status resp)) (responses srv) ->
  exists r' werr srv' σ' record,
    read_and_parse r = Ok (r', werr)
    /\ ServeHTTP srv w r σ = Ok (srv', σ')
    /\ records srv' = records srv ++ [record]
    /\ Request record = Some r'
    /\ Response record = Some (length (sinks σ))
    /\ RequestBody record = tee_buffer r'
    /\ (forall e, werr = Some e -> ServerError record = Some e)
    /\ grows (length (sinks σ)) (leaves w) σ σ'.
Proof.
  intros Hr Hwf Hv.
  destruct (read_and_parse_readable r Hr) as (r' & werr & Erp).
  pose proof (ServeHTTP_cases srv w r σ Hwf) as Hcases.
  rewrite Erp in Hcases. exists r', werr.
  destruct werr as [werr|].
  - destruct Hcases as (σ' & calls & E & Hrec & Hg & _).
    eexists _, σ', _. split; [done|]. split; [exact E|]. cbn.
    do 4 (split; [done|]). split; [|exact Hg]. by intros e [= <-].
  - destruct Hcases as (werr & σ' & E & Hrec & Hg & _).
    { by apply ServeHTTP_response_valid. }
    eexists _, σ', _. split; [done|]. split; [exact E|]. cbn.
    do 4 (split; [done|]). split; [done|exact Hg].
Qed.


(** The request served from an empty queue. *)
Lemma ServeHTTP_empty_queue (srv : HTTPTestServer) (w : ResponseWriter)
  (r r' : http_Request) (σ : World) :
  responses srv = [] ->
  wf_writer (length (sinks σ)) w ->
  read_and_parse r = Ok (r', None) ->
  exists σ' record,
    ServeHTTP srv w r σ
    = Ok (mkHTTPTestServer [] (records srv ++ [record]), σ')
    /\ ServerError record = None
    /\ recorded σ' record = Some (mkResponse 404 ∅ [])
    /\ trace σ'
       = trace σ ++ map (fun l => (l, CallWriteHeader 404))
                        (length (sinks σ) :: leaves w).
Proof.
  intros Hempty Hwf Erp.
  pose proof (ServeHTTP_cases srv w r σ Hwf) as Hcases.
  rewrite Erp, (ServeHTTP_response_empty srv Hempty) in Hcases.
  cbn [fst snd Status Headers Body] in Hcases.
  destruct Hcases as (werr & σ' & E & Hrec & Hg & _ & Hnone & Htr);
    [by unfold valid_status|].
  rewrite (Hnone eq_refl) in *. rewrite Hempty in E.
  eexists σ', _. split; [exact E|]. split; [done|]. split.
  - unfold recorded, recorder_of. cbn [Response]. by destruct Hrec as [_ ->].
  - by apply Htr.
Qed.

(** C4, as the code has it. With an empty response queue, every handled
    request leaves the queue empty and appends exactly one record; and
    every request whose body read and form parsing succeed is served the
    default response, which is in no queue: its recorder shows status
    404, no header and an empty body, its record holds no error, and the
    only calls made on the writers are one [WriteHeader(404)] on the
    recorder and on each object the writer of the request reaches. *)
Theorem empty_queue_default_response (srv : HTTPTestServer)
  (w : ResponseWriter) (r : http_Request) (σ : World) :
  responses srv = [] ->
  readable (ReqBody r) = true ->
  wf_writer (length (sinks σ)) w ->
  exists srv' σ' record,
    ServeHTTP srv w r σ = Ok (srv', σ')
    /\ responses srv' = []
    /\ records srv' = records srv ++ [record]
    /\ (forall r', read_and_parse r = Ok (r', None) ->
          ServerError record = None
          /\ recorded σ' record = Some (mkResponse 404 ∅ [])
          /\ trace σ'
             = trace σ ++ map (fun l => (l, CallWriteHeader 404))
                              (length (sinks σ) :: leaves w)).
Proof.
  intros Hempty Hr Hwf.
  destruct (read_and_parse_readable r Hr) as (r' & werr & Erp).
  destruct werr as [werr|].
  - pose proof (ServeHTTP_cases srv w r σ Hwf) as Hcases.
    rewrite Erp in Hcases. destruct Hcases as (σ' & calls & E & _).
    eexists _, σ', _. split; [exact E|]. cbn. split; [done|].
    split; [done|]. intros r'' Hrp. congruence.
  - destruct (ServeHTTP_empty_queue srv w r r' σ Hempty Hwf Erp)
      as (σ' & record & E & Herr & Hres & Htr).
    exists (mkHTTPTestServer [] (records srv ++ [record])), σ', record.
    split; [exact E|]. cbn. split; [done|]. split; [done|].
    intros r'' _. by split.
Qed.

(** C8. Clearing the predefined responses leaves an empty queue and the
    records as they are, whatever the server went through before, so that
    a later request is handled as by a server that never had a response:
    the handler runs on the empty queue, and a request whose body read
    and form parsing succeed is served the default 404 response and
    leaves the queue empty.  Clearing the records leaves an empty record
    store and the response queue as it is. *)
Theorem Clear_resets_each_queue (hts : HTTPTestServer) :
  (responses (ClearPredefinedServerResponses hts) = []
   /\ records (ClearPredefinedServerResponses hts) = records hts)
  /\ (records (ClearServerRecords hts) = []
      /\ responses (ClearServerRecords hts) = responses hts)
  /\ (forall w r σ,
        ServeHTTP (ClearPredefinedServerResponses hts) w r σ
        = ServeHTTP (mkHTTPTestServer [] (records hts)) w r σ)
  /\ (forall w r r' σ,
        wf_writer (length (sinks σ)) w ->
        read_and_parse r = Ok (r', None) ->
        exists σ' record,
          ServeHTTP (ClearPredefinedServerResponses hts) w r σ
          = Ok (mkHTTPTestServer [] (records hts ++ [record]), σ')
          /\ ServerError record = None
          /\ recorded σ' record = Some (mkResponse 404 ∅ [])).
Proof.
  split; [done|]. split; [done|]. split; [done|].
  intros w r r' σ Hwf Erp.
  destruct (ServeHTTP_empty_queue (ClearPredefinedServerResponses hts) w r r' σ
              eq_refl Hwf Erp) as (σ' & record & E & Herr & Hres & _).
  by exists σ', record.
Qed.


End HandlerTheorems.

(** ** The response queue over a run of requests *)

Lemma push_all_responses (rs : list PredefinedServerResponse) (hts : HTTPTestServer) :
  responses (fold_left PushPredefinedServerResponse rs hts) = responses hts ++ rs
  /\ records (fold_left PushPredefinedServerResponse rs hts) = records hts.
Proof.
  revert hts. induction rs as [|resp rs IH]; intros hts; cbn.
  - by rewrite app_nil_r.
  - destruct (IH (PushPredefinedServerResponse hts resp)) as [-> ->].
    cbn. by rewrite <- app_assoc.
Qed.

Lemma ServeHTTP_response_first srv :
  (ServeHTTP_response srv).1 = nth_response (responses srv) 0.
Proof.
  unfold ServeHTTP_response, nth_response.
  by destruct (responses srv) as [|a rs].
Qed.

Lemma ServeHTTP_response_rest srv :
  responses (ServeHTTP_response srv).2
  = drop (Nat.min 1 (length (responses srv) - 1)) (responses srv).
Proof.
  unfold ServeHTTP_response.
  by destruct (responses srv) as [|a [|b rs]] eqn:E; cbn; rewrite ?E.
Qed.

Lemma nth_response_rest srv j :
  nth_response (responses (ServeHTTP_response srv).2) j
  = nth_response (responses srv) (S j).
Proof.
  rewrite ServeHTTP_response_rest. unfold nth_response.
  destruct (responses srv) as [|a [|b rs]]; [done| |].
  - cbn. by rewrite !Nat.min_0_r.
  - cbn [length Nat.sub Nat.min drop]. f_equal.
    by rewrite Nat.sub_0_r.
Qed.

Section Runs.
Context `{GoStdlib}.

(** A run of requests that are read and parsed without failure, with
    writers that exist before the run (below address [n0]). *)
Lemma ServeHTTP_all_served (n0 : nat)
  (reqs : list (ResponseWriter * http_Request)) :
  forall srv σ,
    (n0 <= length (sinks σ))%nat ->
    Forall (fun resp => valid_status (Status resp)) (responses srv) ->
    Forall (fun wr => wf_writer n0 wr.1
                      /\ exists r', read_and_parse wr.2 = Ok (r', None)) reqs ->
    exists srv' σ' recs,
      ServeHTTP_all srv reqs σ = Ok (srv', σ')
      /\ responses srv'
         = drop (Nat.min (length reqs) (length (responses srv) - 1))
                (responses srv)
      /\ records srv' = records srv ++ recs
      /\ length recs = length reqs
      /\ (forall j record,
            recs !! j = Some record ->
            recorded σ' record
            = Some (response_of (nth_response (responses srv) j)
                                (ServerError record)))
      /\ length (sinks σ') = (length (sinks σ) + length reqs)%nat
      /\ (forall l, (n0 <= l < length (sinks σ))%nat ->
                    sinks σ' !! l = sinks σ !! l).
Proof.
  induction reqs as [|[w r] reqs IH]; intros srv σ Hn0 Hv Hreqs.
  - exists srv, σ, []. cbn. rewrite app_nil_r.
    repeat split; try done; lia.
  - apply Forall_cons in Hreqs as [[Hwf (r' & Erp)] Hreqs]. cbn [fst snd] in *.
    pose proof (ServeHTTP_cases srv w r σ (wf_writer_mono _ _ _ Hwf Hn0))
      as Hcases.
    rewrite Erp in Hcases.
    destruct (ServeHTTP_response_valid srv Hv) as [Hv0 Hv1].
    destruct (Hcases Hv0) as (werr & σ1 & E & Hrec & [Hlen1 Hg] & _).
    cbn [ServeHTTP_all]. rewrite (bind_Ok _ _ _ _ _ E).
    match type of E with _ = Ok (?s, _) => set (srv1 := s) in * end.
    assert (Hn1 : (n0 <= length (sinks σ1))%nat) by lia.
    destruct (IH srv1 σ1 Hn1 Hv1 Hreqs)
      as (srv' & σ' & recs & E' & Hresp & Hrecs & Hlen & Hserved & Hlen' & Hf).
    subst srv1.
    cbn [responses records] in *.
    eexists srv', σ', (_ :: recs). split; [exact E'|]. split.
    { rewrite Hresp, ServeHTTP_response_rest, drop_drop. f_equal.
      cbn [length]. destruct (responses srv) as [|a [|b rs]]; cbn; lia. }
    split; [by rewrite Hrecs, <- app_assoc|].
    split; [cbn; lia|]. split; [|split].
    + intros [|j] record Hj.
      * injection Hj as <-. unfold recorded, recorder_of.
        cbn [Response ServerError].
        rewrite Hf; [|lia]. destruct Hrec as [_ ->]. cbn [fmap option_fmap option_map].
        rewrite Result_served_recorder; [|done].
        by rewrite ServeHTTP_response_first.
      * rewrite (Hserved j record Hj). by rewrite nth_response_rest.
    + cbn [length]. lia.
    + intros l Hl. rewrite Hf; [|lia]. apply Hg; [lia|].
      intros Hin. unfold wf_writer in Hwf. rewrite Forall_forall in Hwf.
      specialize (Hwf l Hin). cbn in Hwf. lia.
Qed.

(** C1, as the code has it. After N >= 2 predefined responses pushed on a
    new server, and with no clear in between, take N+k requests whose
    body read and form parsing succeed, each with a writer that exists
    before the run, the statuses pushed being accepted by [WriteHeader].
    After the first [m] of them, for every [m]: the handler has returned
    each time, the queue is the pushed list without its first
    [min m (N-1)] responses, so that the responses leave the queue from
    its front, one for each request, until the N-th is alone, and the
    N-th is never removed; [m] records are stored, and the recorder of
    the [j]-th one (counting from 0) shows the status, the headers and
    the body of the pushed response number [min j (N-1)]: the responses
    in push order for the first N-1 requests, the N-th one from then on
    (followed by the failure text if its write failed). After all the
    requests the queue holds the N-th response alone. *)
Theorem responses_fifo_then_sticky (rs : list PredefinedServerResponse)
  (reqs : list (ResponseWriter * http_Request)) (k : nat) (σ : World) :
  (2 <= length rs)%nat ->
  length reqs = (length rs + k)%nat ->
  Forall (fun resp => valid_status (Status resp)) rs ->
  Forall (fun wr => wf_writer (length (sinks σ)) wr.1
                    /\ exists r', read_and_parse wr.2 = Ok (r', None)) reqs ->
  forall m, (m <= length reqs)%nat ->
    exists srv' σ',
      ServeHTTP_all (fold_left PushPredefinedServerResponse rs NewHTTPTestServer)
                    (take m reqs) σ = Ok (srv', σ')
      /\ responses srv' = drop (Nat.min m (length rs - 1)) rs
      /\ length (records srv') = m
      /\ (forall j record,
            records srv' !! j = Some record ->
            exists resp,
              rs !! Nat.min j (length rs - 1) = Some resp
              /\ recorded σ' record = Some (response_of resp (ServerError record)))
      /\ (m = length reqs ->
          exists last_response,
            last rs = Some last_response /\ responses srv' = [last_response]).
Proof.
  intros HN Hlen Hv Hreqs m Hm.
  destruct (push_all_responses rs NewHTTPTestServer) as [Hresp0 Hrecs0].
  cbn in Hresp0, Hrecs0.
  destruct (ServeHTTP_all_served (length (sinks σ)) (take m reqs)
              (fold_left PushPredefinedServerResponse rs NewHTTPTestServer) σ)
    as (srv' & σ' & recs & E & Hresp & Hrecs & Hlenr & Hserved & _);
    [lia|by rewrite Hresp0|by apply Forall_take|].
  rewrite Hresp0 in *. rewrite Hrecs0 in Hrecs. cbn in Hrecs.
  rewrite length_take_le in Hresp, Hlenr by lia.
  exists srv', σ'. split; [exact E|]. split; [exact Hresp|].
  split; [by rewrite Hrecs|]. split.
  - intros j record Hj. rewrite Hrecs in Hj.
    destruct (lookup_lt_is_Some_2 rs (Nat.min j (length rs - 1)))
      as [resp Hresp_j]; [lia|].
    exists resp. split; [exact Hresp_j|].
    rewrite (Hserved j record Hj). unfold nth_response. by rewrite Hresp_j.
  - intros ->. rewrite Hresp, Hlen, Nat.min_r by lia.
    destruct (last rs) as [lastr|] eqn:Elast.
    + exists lastr. split; [done|].
      rewrite last_lookup in Elast.
      replace (length rs - 1)%nat with (pred (length rs)) by lia.
      by apply drop_S in Elast as ->; rewrite drop_ge; [|lia].
    + apply last_None in Elast. subst. cbn in HN. lia.
Qed.

End Runs.

(** ** The request body and its copy *)

Section RequestBody.
Context `{GoStdlib}.

Lemma parsePostForm_body r r' vs e :
  parsePostForm r = Ok (r', vs, e) ->
  if not_nil (ReqBody r)
     && String.eqb
          (mime_ParseMediaType
             (if String.eqb (Header.Get (ReqHeader r) "Content-Type") EmptyString
              then "application/octet-stream"
              else Header.Get (ReqHeader r) "Content-Type")).1
          formContentType
  then exists b e0 body',
         ReadAll (Some (maxFormSize + 1)%N) (ReqBody r) = Ok (b, e0, body')
         /\ ReqBody r' = body'
  else ReqBody r' = ReqBody r.
Proof.
  unfold parsePostForm.
  destruct (ReqBody r) as [|pending fault|src buf] eqn:Ebody; cbn [not_nil andb].
  - intros [= <- _ _]. done.
  - destruct (mime_ParseMediaType _) as [ct err]. cbn [fst].
    destruct (String.eqb ct formContentType).
    + destruct (ReadAll _ _) as [[[b e0] body']|]; [|done].
      intros Hres. exists b, e0, body'. split; [done|].
      destruct e0; [by injection Hres as <- _ _|].
      destruct (_ <? _)%N; [by injection Hres as <- _ _|].
      destruct (URL.ParseQuery _). by injection Hres as <- _ _.
    + by intros [= <- _ _].
  - destruct (mime_ParseMediaType _) as [ct err]. cbn [fst].
    destruct (String.eqb ct formContentType).
    + destruct (ReadAll _ _) as [[[b e0] body']|]; [|done].
      intros Hres. exists b, e0, body'. split; [done|].
      destruct e0; [by injection Hres as <- _ _|].
      destruct (_ <? _)%N; [by injection Hres as <- _ _|].
      destruct (URL.ParseQuery _). by injection Hres as <- _ _.
    + by intros [= <- _ _].
Qed.

(** The body of the request after [ParseForm]. *)
Lemma ParseForm_body r r' e :
  ParseForm r = Ok (r', e) ->
  if parses_body r
  then exists b e0 body',
         ReadAll (Some (maxFormSize + 1)%N) (ReqBody r) = Ok (b, e0, body')
         /\ ReqBody r' = body'
  else ReqBody r' = ReqBody r.
Proof.
  unfold ParseForm, parses_body.
  change (String.eqb (Method r) "POST" || String.eqb (Method r) "PUT"
          || String.eqb (Method r) "PATCH") with (form_method (Method r)).
  destruct (PostForm r) as [pf|] eqn:Epf.
  - destruct (Form r); [by intros [= <- _]|].
    destruct (match RawQuery r with Some q => URL.ParseQuery q | None => _ end).
    by intros [= <- _].
  - destruct (form_method (Method r)); cbn [andb].
    + destruct (parsePostForm r) as [[[r1 vs] e1]|] eqn:Epost; [|done].
      pose proof (parsePostForm_body _ _ _ _ Epost) as Hbody.
      cbn [Form ReqBody RawQuery].
      destruct (Form r1).
      * intros [= <- _]. exact Hbody.
      * destruct (match RawQuery r1 with Some q => URL.ParseQuery q | None => _ end).
        intros [= <- _]. exact Hbody.
    + cbn [Form ReqBody RawQuery]. destruct (Form r).
      * by intros [= <- _].
      * destruct (match RawQuery r with Some q => URL.ParseQuery q | None => _ end).
        by intros [= <- _].
Qed.

(** The first block of the handler, by content type. *)
Lemma ServeHTTP_readBody_form r :
  Header.Get (ReqHeader r) "Content-Type" = formContentType ->
  ServeHTTP_readBody r = Ok (set_Body r (NopCloserTee (ReqBody r) []), None).
Proof. intros Hct. unfold ServeHTTP_readBody. cbn. by rewrite Hct. Qed.

Lemma ServeHTTP_readBody_other r :
  Header.Get (ReqHeader r) "Content-Type" <> formContentType ->
  ServeHTTP_readBody r
  = match ReadAll None (ReqBody r) with
    | Ok (data, err, body) => Ok (set_Body r (NopCloserTee body data), err)
    | Panic msg => Panic msg
    end.
Proof.
  intros Hct. unfold ServeHTTP_readBody. cbn.
  apply String.eqb_neq in Hct. unfold formContentType in Hct. rewrite Hct. cbn.
  by destruct (ReadAll None (ReqBody r)) as [[[data err] body]|].
Qed.


(** The buffer of the tee reader once the request is read and parsed. *)
Lemma tee_buffer_other r r' werr pending fault :
  Header.Get (ReqHeader r) "Content-Type" <> formContentType ->
  ReqBody r = Source pending fault ->
  read_and_parse r = Ok (r', werr) ->
  tee_buffer r' = pending.
Proof.
  intros Hct Hbody. unfold read_and_parse.
  rewrite (ServeHTTP_readBody_other r Hct), Hbody. cbn [ReadAll].
  destruct fault as [e|]; [by intros [= <- _]|].
  set (r1 := set_Body r _).
  destruct (ParseForm r1) as [[r2 err]|] eqn:Eparse; [|done].
  pose proof (ParseForm_body _ _ _ Eparse) as Hb.
  assert (Hr2 : tee_buffer r2 = pending).
  { unfold tee_buffer. destruct (parses_body r1).
    - destruct Hb as (b & e0 & body' & Eread & ->).
      cbn in Eread. injection Eread as _ _ <-. by rewrite app_nil_r.
    - by rewrite Hb. }
  destruct err; by intros [= <- _].
Qed.

Lemma tee_buffer_form r r' werr pending fault :
  Header.Get (ReqHeader r) "Content-Type" = formContentType ->
  ReqBody r = Source pending fault ->
  read_and_parse r = Ok (r', werr) ->
  (PostForm r = None -> form_method (Method r) = true ->
   (mime_ParseMediaType formContentType).1 = formContentType ->
   (N.of_nat (length pending) <= maxFormSize)%N ->
   tee_buffer r' = pending)
  /\ (form_method (Method r) = false -> tee_buffer r' = []).
Proof.
  intros Hct Hbody. unfold read_and_parse.
  rewrite (ServeHTTP_readBody_form r Hct).
  set (r1 := set_Body r _).
  destruct (ParseForm r1) as [[r2 err]|] eqn:Eparse; [|done].
  pose proof (ParseForm_body _ _ _ Eparse) as Hb.
  intros Hres.
  assert (r' = r2) as -> by (destruct err; by injection Hres).
  unfold parses_body in Hb. cbn [r1 set_Body PostForm Method ReqBody ReqHeader] in Hb.
  rewrite Hct, Hbody in Hb. cbn [not_nil] in Hb.
  change (String.eqb formContentType EmptyString) with false in Hb.
  cbn iota in Hb. split.
  - intros Hpf Hm Hmime Hlen. rewrite Hpf, Hm, Hmime in Hb.
    cbn in Hb.
    destruct Hb as (b & e0 & body' & Eread & Hr2).
    unfold tee_buffer. rewrite Hr2.
    destruct (_ <=? _)%N eqn:Ecmp in Eread.
    + apply N.leb_le in Ecmp. unfold maxFormSize in *. lia.
    + by injection Eread as _ _ <-.
  - intros Hm. rewrite Hm in Hb.
    assert (Hr2 : ReqBody r2 = NopCloserTee (Source pending fault) [])
      by (by destruct (PostForm r)).
    unfold tee_buffer. by rewrite Hr2.
Qed.

(** C6, as the code has it. The buffer of the record is the bytes that
    were read from the body of the request, as they came.  For a content
    type other than the form one, these are all the bytes of the body.
    For the form content type they are those [ParseForm] reads: on a
    POST, PUT or PATCH request whose form is not parsed yet and whose
    body is within the size limit of a form, all the bytes of the body,
    byte for byte and not re-encoded; on a request with another method,
    none, the body not being read. *)
Theorem RequestBody_holds_the_bytes_read (srv : HTTPTestServer)
  (w : ResponseWriter) (r : http_Request) (σ : World)
  (pending : bytes) (fault : option error) :
  ReqBody r = Source pending fault ->
  wf_writer (length (sinks σ)) w ->
  Forall (fun resp => valid_status (Status resp)) (responses srv) ->
  exists srv' σ' record,
    ServeHTTP srv w r σ = Ok (srv', σ')
    /\ records srv' = records srv ++ [record]
    /\ (Header.Get (ReqHeader r) "Content-Type"
        <> "application/x-www-form-urlencoded" ->
        RequestBody record = pending)
    /\ (Header.Get (ReqHeader r) "Content-Type"
        = "application/x-www-form-urlencoded" ->
        (PostForm r = None -> form_method (Method r) = true ->
         (mime_ParseMediaType "application/x-www-form-urlencoded").1
         = "application/x-www-form-urlencoded" ->
         (N.of_nat (length pending) <= maxFormSize)%N ->
         RequestBody record = pending)
        /\ (form_method (Method r) = false -> RequestBody record = [])).
Proof.
  intros Hbody Hwf Hv.
  destruct (ServeHTTP_returns srv w r σ) as
    (r' & werr & srv' & σ' & record & Erp & E & Hrecs & _ & _ & Hbuf & _);
    [by rewrite Hbody|done|done|].
  exists srv', σ', record. split; [exact E|]. split; [exact Hrecs|].
  rewrite Hbuf. split.
  - intros Hct. by eapply tee_buffer_other.
  - intros Hct. by eapply tee_buffer_form.
Qed.

End RequestBody.

(** * Concrete runs *)

(** ** The tests of the repository *)

(** [TestHandleInternalError]: on a new recorder the response is 500,
    [text/plain], with the text of the error, and the record holds the
    error. *)
Example TestHandleInternalError :
  match handleInternalError (H := go_std) NewHTTPTestServer (SinkAt 0)
          (mkServerRecord None None [] None) PWNED client_recorder with
  | Ok (hts, σ) =>
      map ServerError (records hts) = [Some PWNED]
      /\ recorded σ (mkServerRecord None (Some 0%nat) [] None)
         = Some (mkResponse 500 text_plain (bytes_of_string "PWNED"))
  | Panic _ => False
  end.
Proof. vm_compute. split; reflexivity. Qed.

(** The same call on the second listing of the function: no
    [Content-Type] is set. *)
Example handleInternalError_second_listing_no_content_type :
  match handleInternalError_second_listing (H := go_std) NewHTTPTestServer
          (SinkAt 0) (mkServerRecord None None [] None) PWNED
          client_recorder with
  | Ok (hts, σ) =>
      recorded σ (mkServerRecord None (Some 0%nat) [] None)
      = Some (mkResponse 500 ∅ (bytes_of_string "PWNED"))
  | Panic _ => False
  end.
Proof. vm_compute. reflexivity. Qed.

(** [TestMultiTargetResponseWriterHeaderWhenNoTargets] *)
Example TestMultiTargetResponseWriterHeaderWhenNoTargets :
  ResponseWriter_Header (newMultiTargetHTTPResponseWriter []) client_recorder
  = Ok (None, client_recorder).
Proof. reflexivity. Qed.

(** [TestWithMultipleResponses]: 404 on the empty queue, then 200, 204 and
    204 again after two responses are pushed; four records in all. *)
Example TestWithMultipleResponses :
  match ServeHTTP (H := go_std) NewHTTPTestServer (SinkAt 0) (GET "")
                  client_recorder with
  | Ok (hts, σ) =>
      let hts := PushPredefinedServerResponse hts
                   (mkPredefinedServerResponse 200 [] []) in
      let hts := PushPredefinedServerResponse hts
                   (mkPredefinedServerResponse 204 [] []) in
      match ServeHTTP_all (H := go_std) hts
              [(SinkAt 0, GET ""); (SinkAt 0, GET ""); (SinkAt 0, GET "")]
              σ with
      | Ok (hts, σ) =>
          recorded_statuses σ hts = [Some 404; Some 200; Some 204; Some 204]
          /\ map Status (responses hts) = [204]
      | Panic _ => False
      end
  | Panic _ => False
  end.
Proof. vm_compute. split; reflexivity. Qed.

(** [TestServeHTTPErrPaths], first and second runs: the body fails when
    it is read by the handler, and when it is read by [ParseForm]. *)
Example TestServeHTTPErrPaths_read :
  match ServeHTTP (H := go_std) NewHTTPTestServer (SinkAt 0)
                  (POST_failing_body "application/json") client_recorder with
  | Ok (hts, σ) =>
      recorded_statuses σ hts = [Some 500]
      /\ map ServerError (records hts)
         = [Some (Errorf_w "test server failed to read the request body: "
                           PWNED)]
  | Panic _ => False
  end.
Proof. vm_compute. split; reflexivity. Qed.

Example TestServeHTTPErrPaths_parse :
  match ServeHTTP (H := go_std) NewHTTPTestServer (SinkAt 0)
                  (POST_failing_body "application/x-www-form-urlencoded")
                  client_recorder with
  | Ok (hts, σ) =>
      recorded_statuses σ hts = [Some 500]
      /\ map ServerError (records hts)
         = [Some (Errorf_w
                    "test server failed to parse query string and form data: "
                    PWNED)]
  | Panic _ => False
  end.
Proof. vm_compute. split; reflexivity. Qed.

(** ** The multi-target writer on a recorder and a failing mock *)

Lemma Write_first_failure_wins_witness :
  wf_writer 2 (MultiTarget [SinkAt 0; SinkAt 1])
  /\ exists res σ',
       ResponseWriter_Write (H := go_std) (MultiTarget [SinkAt 0; SinkAt 1])
                            (bytes_of_string "hello") failing_client
       = Ok (res, σ')
       /\ first_failure_wins
            (fun target => ResponseWriter_Write (H := go_std) target
                                                (bytes_of_string "hello"))
            [SinkAt 0; SinkAt 1] failing_client res σ'
       /\ (forall ls, [SinkAt 0; SinkAt 1] = map SinkAt ls ->
             exists k,
               trace σ'
               = trace failing_client
                 ++ map (fun l => (l, CallWrite (bytes_of_string "hello")))
                        (take k ls)
               /\ (k <= length ls)%nat
               /\ (res.2 = None -> k = length ls)
               /\ (is_Some res.2 -> (0 < k)%nat)).
Proof.
  assert (Hwf : wf_writer 2 (MultiTarget [SinkAt 0; SinkAt 1]))
    by (repeat constructor).
  split; [exact Hwf|].
  exact (Write_first_failure_wins (H := go_std) [SinkAt 0; SinkAt 1]
           (bytes_of_string "hello") failing_client Hwf).
Defined.

(** The failing mock in front: the recorder behind it is not written to,
    and the result is the mock's. *)
Example Write_stops_at_the_first_failure :
  ResponseWriter_Write (H := go_std) (MultiTarget [SinkAt 1; SinkAt 0])
                       (bytes_of_string "hello") failing_client
  = Ok ((0, Some PWNED),
        mkWorld [RecorderSink NewRecorder;
                 MockSink (mkMock ∅ (fun _ _ => (0, Some PWNED)) 1)]
                [(1%nat, CallWrite (bytes_of_string "hello"))]).
Proof. reflexivity. Qed.

Lemma WriteHeader_every_target_witness :
  Forall (accepts_at failing_client 204)
         (leaves (MultiTarget [SinkAt 0; SinkAt 1]))
  /\ exists σ',
       ResponseWriter_WriteHeader (MultiTarget [SinkAt 0; SinkAt 1]) 204
                                  failing_client = Ok (tt, σ')
       /\ trace σ'
          = trace failing_client
            ++ map (fun l => (l, CallWriteHeader 204))
                   (flat_map leaves [SinkAt 0; SinkAt 1])
       /\ (forall ls, [SinkAt 0; SinkAt 1] = map SinkAt ls ->
             trace σ'
             = trace failing_client ++ map (fun l => (l, CallWriteHeader 204)) ls).
Proof.
  assert (Hacc : Forall (accepts_at failing_client 204)
                        (leaves (MultiTarget [SinkAt 0; SinkAt 1]))).
  { repeat constructor.
    - eexists. split; [reflexivity|]. right. unfold valid_status. lia.
    - eexists. split; [reflexivity|]. exact I. }
  split; [exact Hacc|].
  exact (WriteHeader_every_target [SinkAt 0; SinkAt 1] 204 failing_client Hacc).
Defined.

(** A recorder that has its status already is called all the same, and
    so is the mock after it. *)
Example WriteHeader_calls_committed_targets :
  match ResponseWriter_WriteHeader (MultiTarget [SinkAt 0; SinkAt 1; SinkAt 0])
                                   204 failing_client with
  | Ok (_, σ) =>
      trace σ = [(0%nat, CallWriteHeader 204); (1%nat, CallWriteHeader 204);
                 (0%nat, CallWriteHeader 204)]
  | Panic _ => False
  end.
Proof. reflexivity. Qed.

(** ** The handler on concrete requests *)


(** The same run, computed: the write to the client fails, the record is
    there with the wrapped failure. *)
Example ServeHTTP_write_failure_run :
  match ServeHTTP (H := go_std)
          (PushPredefinedServerResponse NewHTTPTestServer response_A)
          (SinkAt 1) (GET "") failing_client with
  | Ok (hts, σ) =>
      map ServerError (records hts)
      = [Some (Errorf_w write_failure_prefix PWNED)]
  | Panic _ => False
  end.
Proof. vm_compute. reflexivity. Qed.



(** [TestServeHTTPErrPaths], first run, on the side of the client: its
    recorder gets the status 500 and the text, in this order after the
    recorder of the record, but no content type, which is set on the
    header map of the first target only. *)
Example failed_read_on_the_client_side :
  match ServeHTTP (H := go_std) NewHTTPTestServer (SinkAt 0)
                  (POST_failing_body "application/json") client_recorder with
  | Ok (_, σ) =>
      let text :=
        bytes_of_string
          (Error (Errorf_w "test server failed to read the request body: "
                           PWNED)) in
      trace σ = [(1%nat, CallHeader);
                 (1%nat, CallWriteHeader 500); (0%nat, CallWriteHeader 500);
                 (1%nat, CallWrite text); (0%nat, CallWrite text)]
      /\ (Result <$> recorder_of σ (mkServerRecord None (Some 0%nat) [] None))
         = Some (mkResponse 500 ∅ text)
  | Panic _ => False
  end.
Proof. vm_compute. split; reflexivity. Qed.

Lemma empty_queue_default_response_witness :
  exists srv' σ' record,
    ServeHTTP (H := go_std) NewHTTPTestServer (SinkAt 0) (GET "")
              client_recorder = Ok (srv', σ')
    /\ responses srv' = []
    /\ records srv' = records NewHTTPTestServer ++ [record]
    /\ (forall r', read_and_parse (H := go_std) (GET "") = Ok (r', None) ->
          ServerError record = None
          /\ recorded σ' record = Some (mkResponse 404 ∅ [])
          /\ trace σ'
             = trace client_recorder
               ++ map (fun l => (l, CallWriteHeader 404))
                      (length (sinks client_recorder) :: leaves (SinkAt 0))).
Proof.
  apply (empty_queue_default_response (H := go_std)).
  - reflexivity.
  - reflexivity.
  - repeat constructor.
Defined.

(** C4, the claim as stated fails: with an empty queue, a request whose
    query string cannot be parsed is answered 500, not 404. *)
Lemma empty_queue_failed_request_is_500 :
  match ServeHTTP (H := go_std) NewHTTPTestServer (SinkAt 0) (GET "a=%zz")
                  client_recorder with
  | Ok (hts, σ) =>
      responses hts = []
      /\ recorded_statuses σ hts = [Some 500]
      /\ recorded_statuses σ hts <> [Some 404]
  | Panic _ => False
  end.
Proof. vm_compute. split; [reflexivity|]. split; [reflexivity|discriminate]. Qed.

Lemma Clear_resets_each_queue_witness :
  exists σ' record,
    ServeHTTP (H := go_std)
      (ClearPredefinedServerResponses
         (mkHTTPTestServer [response_B] [mkServerRecord None None [] None]))
      (SinkAt 0) (GET "") client_recorder
    = Ok (mkHTTPTestServer [] ([mkServerRecord None None [] None] ++ [record]),
          σ')
    /\ ServerError record = None
    /\ recorded σ' record = Some (mkResponse 404 ∅ []).
Proof.
  destruct (Clear_resets_each_queue (H := go_std)
              (mkHTTPTestServer [response_B] [mkServerRecord None None [] None]))
    as (_ & _ & _ & Hserve).
  eapply Hserve.
  - repeat constructor.
  - vm_compute. reflexivity.
Defined.

(** The sticky response is served, the responses are cleared, and the
    next request gets the 404 response. *)
Example Clear_after_sticky_response :
  match ServeHTTP_all (H := go_std)
          (PushPredefinedServerResponse NewHTTPTestServer response_B)
          [(SinkAt 0, GET ""); (SinkAt 0, GET "")] client_recorder with
  | Ok (hts, σ) =>
      match ServeHTTP (H := go_std) (ClearPredefinedServerResponses hts)
                      (SinkAt 0) (GET "") σ with
      | Ok (hts', σ') =>
          recorded_statuses σ' hts' = [Some 204; Some 204; Some 404]
          /\ responses hts' = []
      | Panic _ => False
      end
  | Panic _ => False
  end.
Proof. vm_compute. split; reflexivity. Qed.

(** ** The response queue over concrete runs *)

Lemma responses_fifo_then_sticky_witness :
  exists srv' σ',
    ServeHTTP_all (H := go_std)
      (fold_left PushPredefinedServerResponse [response_A; response_B]
                 NewHTTPTestServer)
      (take 3 three_requests) client_recorder = Ok (srv', σ')
    /\ responses srv'
       = drop (Nat.min 3 (length [response_A; response_B] - 1))
              [response_A; response_B]
    /\ length (records srv') = 3%nat
    /\ (forall j record,
          records srv' !! j = Some record ->
          exists resp,
            [response_A; response_B]
              !! Nat.min j (length [response_A; response_B] - 1) = Some resp
            /\ recorded σ' record = Some (response_of resp (ServerError record)))
    /\ (3%nat = length three_requests ->
        exists last_response,
          last [response_A; response_B] = Some last_response
          /\ responses srv' = [last_response]).
Proof.
  apply (responses_fifo_then_sticky (H := go_std) [response_A; response_B]
           three_requests 1 client_recorder).
  - cbn. lia.
  - reflexivity.
  - repeat constructor; unfold valid_status; cbn; lia.
  - repeat constructor; eexists; vm_compute; reflexivity.
  - cbn. lia.
Defined.

(** The run of the witness, computed: 200, 204, 204, and B left alone in
    the queue. *)
Example responses_fifo_then_sticky_run :
  match ServeHTTP_all (H := go_std)
          (fold_left PushPredefinedServerResponse [response_A; response_B]
                     NewHTTPTestServer)
          three_requests client_recorder with
  | Ok (hts, σ) =>
      recorded_statuses σ hts = [Some 200; Some 204; Some 204]
      /\ responses hts = [response_B]
  | Panic _ => False
  end.
Proof. vm_compute. split; reflexivity. Qed.

(** C1, the claim as stated fails: with N = 2 and k = 1, a first request
    whose query string cannot be parsed is answered 500 and takes no
    response from the queue, so that the second request, from which on
    response 2 is claimed, is served response 1. *)
Lemma failed_request_takes_no_response :
  match ServeHTTP_all (H := go_std)
          (fold_left PushPredefinedServerResponse [response_A; response_B]
                     NewHTTPTestServer)
          [(SinkAt 0, GET "a=%zz"); (SinkAt 0, GET ""); (SinkAt 0, GET "")]
          client_recorder with
  | Ok (hts, σ) =>
      recorded_statuses σ hts = [Some 500; Some 200; Some 204]
      /\ recorded_statuses σ hts
         <> map (fun resp => Some (Status resp))
                [response_A; response_B; response_B]
  | Panic _ => False
  end.
Proof. vm_compute. split; [reflexivity|discriminate]. Qed.

(** ** The copy of the request body on concrete requests *)

Lemma RequestBody_holds_the_bytes_read_witness :
  exists srv' σ' record,
    ServeHTTP (H := go_std) NewHTTPTestServer (SinkAt 0)
              (POST "application/json" "hello") client_recorder
    = Ok (srv', σ')
    /\ records srv' = records NewHTTPTestServer ++ [record]
    /\ (Header.Get (ReqHeader (POST "application/json" "hello")) "Content-Type"
        <> "application/x-www-form-urlencoded" ->
        RequestBody record = bytes_of_string "hello")
    /\ (Header.Get (ReqHeader (POST "application/json" "hello")) "Content-Type"
        = "application/x-www-form-urlencoded" ->
        (PostForm (POST "application/json" "hello") = None ->
         form_method (Method (POST "application/json" "hello")) = true ->
         (mime_ParseMediaType (GoStdlib := go_std)
                              "application/x-www-form-urlencoded").1
         = "application/x-www-form-urlencoded" ->
         (N.of_nat (length (bytes_of_string "hello")) <= maxFormSize)%N ->
         RequestBody record = bytes_of_string "hello")
        /\ (form_method (Method (POST "application/json" "hello")) = false ->
            RequestBody record = [])).
Proof.
  apply (RequestBody_holds_the_bytes_read (H := go_std) NewHTTPTestServer
           (SinkAt 0) (POST "application/json" "hello") client_recorder
           (bytes_of_string "hello") None).
  - reflexivity.
  - repeat constructor.
  - constructor.
Defined.

(** [TestWithSingleJsonResponse] and [TestWithFormEncodedData]: the
    buffer holds the payload; for the form, the payload is what
    [PostForm] sends, the encoding of the values. *)
Example RequestBody_json_run :
  match ServeHTTP (H := go_std) NewHTTPTestServer (SinkAt 0)
                  (POST "application/json" "hello") client_recorder with
  | Ok (hts, _) => map RequestBody (records hts) = [bytes_of_string "hello"]
  | Panic _ => False
  end.
Proof. vm_compute. reflexivity. Qed.

Example RequestBody_form_run :
  match ServeHTTP (H := go_std) NewHTTPTestServer (SinkAt 0)
          (POST "application/x-www-form-urlencoded"
                "id=1&messages=hello&messages=world")
          client_recorder with
  | Ok (hts, _) =>
      map RequestBody (records hts)
      = [bytes_of_string "id=1&messages=hello&messages=world"]
      /\ map (fun record => URL.Encode <$> (Request record ≫= PostForm))
             (records hts)
         = [Some "id=1&messages=hello&messages=world"]
  | Panic _ => False
  end.
Proof. vm_compute. split; reflexivity. Qed.

(** C6, the claim as stated fails: for a form body whose keys are not in
    the order of the encoding, the buffer holds the bytes as they came,
    which are not the re-encoding of the parsed values. *)
Lemma form_body_is_not_reencoded :
  match ServeHTTP (H := go_std) NewHTTPTestServer (SinkAt 0)
          (POST "application/x-www-form-urlencoded" "b=2&a=1")
          client_recorder with
  | Ok (hts, _) =>
      exists record r',
        records hts = [record]
        /\ Request record = Some r'
        /\ Header.Get (ReqHeader r') "Content-Type"
           = "application/x-www-form-urlencoded"
        /\ RequestBody record = bytes_of_string "b=2&a=1"
        /\ URL.Encode (default ∅ (PostForm r')) = "a=1&b=2"
        /\ URL.Encode (default ∅ (Form r')) = "a=1&b=2"
        /\ RequestBody record
           <> bytes_of_string (URL.Encode (default ∅ (Form r')))
  | Panic _ => False
  end.
Proof.
  vm_compute. eexists _, _. do 6 (split; [reflexivity|]). discriminate.
Qed.

(** ** The content type test on concrete requests *)


(** With the parameter on the content type the handler has read the body
    when [ParseForm] comes to it: the form is empty, the buffer holds the
    bytes. *)
Example form_with_charset_run :
  match ServeHTTP (H := go_std) NewHTTPTestServer (SinkAt 0)
          (POST "application/x-www-form-urlencoded; charset=utf-8" "a=1")
          client_recorder with
  | Ok (hts, _) =>
      map RequestBody (records hts) = [bytes_of_string "a=1"]
      /\ map (fun record => URL.Encode <$> (Request record ≫= PostForm))
             (records hts) = [Some EmptyString]
  | Panic _ => False
  end.
Proof. vm_compute. split; reflexivity. Qed.

(** A nil body: the guard lets the read through, which panics, unless the
    content type is the form one and the method has no form body. *)
Example nil_body_panics :
  ServeHTTP (H := go_std) NewHTTPTestServer (SinkAt 0)
            (mkRequest "GET" (Some EmptyString) ∅ NilReader None None)
            client_recorder
  = Panic "invalid memory address or nil pointer dereference".
Proof. reflexivity. Qed.

(** * Further properties of the code *)

(** ** The two queues *)

(** X1. Popping as many times as there are records, and [extra] times
    more, returns the records oldest first and then nil each time; the
    store is left empty and the response queue as it was. *)
Theorem PopServerRecords_drains_in_order (hts : HTTPTestServer) (extra : nat) :
  PopServerRecords (length (records hts) + extra) hts
  = (map Some (records hts) ++ replicate extra None,
     mkHTTPTestServer (responses hts) []).
Proof.
  destruct hts as [rs recs]. cbn [records responses].
  induction recs as [|record recs IH].
  - cbn [length Nat.add map app].
    induction extra as [|extra IH]; [done|].
    cbn [PopServerRecords replicate]. unfold PopServerRecord at 1.
    cbn [records length Nat.leb]. by rewrite IH.
  - cbn [length Nat.add PopServerRecords]. unfold PopServerRecord at 1.
    cbn [records responses length Nat.leb]. by rewrite IH.
Qed.

(** X2. The response picked after a push. On an empty queue the pushed
    response is picked and stays in the queue. Behind other responses,
    the first of them is picked and removed, also when it was alone, the
    response served again and again until then; the pushed response is
    at the end of what is left. *)
Theorem PushPredefinedServerResponse_then_response (hts : HTTPTestServer)
  (resp : PredefinedServerResponse) :
  ServeHTTP_response (PushPredefinedServerResponse hts resp)
  = match responses hts with
    | [] => (resp, PushPredefinedServerResponse hts resp)
    | first :: rest =>
        (first, mkHTTPTestServer (rest ++ [resp]) (records hts))
    end.
Proof.
  unfold ServeHTTP_response, PushPredefinedServerResponse.
  cbn [responses records].
  by destruct (responses hts) as [|first [|second rest]].
Qed.


Section FurtherHandler.
Context `{GoStdlib}.



(** X4. A request leaves the objects its writer does not reach as they
    were: the recorders of the earlier records show the same responses
    after it as before, and the earlier records are still stored, in
    their places. *)
Theorem ServeHTTP_keeps_earlier_records (srv : HTTPTestServer)
  (w : ResponseWriter) (r : http_Request) (σ : World) :
  readable (ReqBody r) = true ->
  wf_writer (length (sinks σ)) w ->
  Forall (fun resp => valid_status (Status resp)) (responses srv) ->
  exists srv' σ',
    ServeHTTP srv w r σ = Ok (srv', σ')
    /\ (forall l, (l < length (sinks σ))%nat -> l ∉ leaves w ->
                  sinks σ' !! l = sinks σ !! l)
    /\ (forall j record l,
          records srv !! j = Some record ->
          Response record = Some l ->
          (l < length (sinks σ))%nat -> l ∉ leaves w ->
          records srv' !! j = Some record
          /\ recorded σ' record = recorded σ record).
Proof.
  intros Hr Hwf Hv.
  destruct (ServeHTTP_returns srv w r σ Hr Hwf Hv) as
    (r' & werr & srv' & σ' & record & _ & E & Hrecs & _ & _ & _ & _ & [_ Hg]).
  exists srv', σ'. split; [exact E|]. split; [exact Hg|].
  intros j record0 l Hj Hl Hlt Hnot. split.
  - rewrite Hrecs. by apply lookup_app_l_Some.
  - unfold recorded, recorder_of. rewrite Hl. by rewrite Hg.
Qed.

(** X5. A queued status outside 100..999, such as the 0 of a response
    pushed without a status: a request that is read and parsed makes the
    handler panic in [WriteHeader] of the recorder; the handler does not
    return, and no record is stored. *)
Theorem ServeHTTP_invalid_status_panics (srv : HTTPTestServer)
  (w : ResponseWriter) (r r' : http_Request) (σ : World) :
  wf_writer (length (sinks σ)) w ->
  read_and_parse r = Ok (r', None) ->
  ~ valid_status (Status (ServeHTTP_response srv).1) ->
  exists msg, ServeHTTP srv w r σ = Panic msg.
Proof.
  intros Hwf Erp Hbad. set (n := length (sinks σ)).
  set (σ1 := mkWorld (sinks σ ++ [RecorderSink NewRecorder]) (trace σ)).
  assert (Hrec1 : holds_recorder n NewRecorder σ1).
  { split; cbn.
    - rewrite length_app. cbn. lia.
    - by apply list_lookup_middle. }
  assert (Halloc : alloc (RecorderSink NewRecorder) σ = Ok (n, σ1)) by done.
  unfold ServeHTTP. rewrite (bind_Ok _ _ _ _ _ Halloc).
  change (newMultiTargetHTTPResponseWriter [SinkAt n; w])
    with (MultiTarget [SinkAt n; w]).
  unfold read_and_parse in Erp.
  destruct (ServeHTTP_readBody r) as [[r1 [err|]]|msg]; [done| |done].
  cbn [lift bind].
  destruct (ParseForm r1) as [[r2 [err|]]|msg]; [done| |done].
  cbn [lift bind].
  destruct (ServeHTTP_response srv) as [resp srv1]. cbn [fst] in Hbad.
  destruct (header_loop_recorder n w (Headers resp) Hwf NewRecorder σ1 Hrec1)
    as (σ2 & E2 & [_ Hrw2] & _).
  rewrite (bind_Ok _ _ _ _ _ E2).
  assert (E3 : exists msg, Sink_WriteHeader n (Status resp) σ2 = Panic msg).
  { unfold Sink_WriteHeader, bind, deref, log, lift. rewrite Hrw2. cbn.
    unfold valid_status in Hbad.
    destruct (Status resp <? 100) eqn:E100; [by eexists|].
    destruct (999 <? Status resp) eqn:E999; [by eexists|].
    exfalso. apply Hbad. lia. }
  destruct E3 as [msg E3]. exists msg.
  cbn [ResponseWriter_WriteHeader]. rewrite for_each_cons.
  cbn [ResponseWriter_WriteHeader]. unfold bind. by rewrite E3.
Qed.

(** X6. [handleInternalError] with any writer whose pointers are valid:
    it returns, whatever the writes give, since their result is dropped;
    the server holds one record more, the given one with the error set,
    and the same response queue; every object of the writer gets
    [WriteHeader(500)], in the order of the targets; no other object of
    the store changes. *)
Theorem handleInternalError_any_writer (srv : HTTPTestServer)
  (w : ResponseWriter) (serverRecord : ServerRecord) (err : error) (σ : World) :
  wf_writer (length (sinks σ)) w ->
  exists σ' before after,
    handleInternalError srv w serverRecord err σ
    = Ok (mkHTTPTestServer
            (responses srv)
            (records srv
               ++ [mkServerRecord (Request serverRecord) (Response serverRecord)
                                  (RequestBody serverRecord) (Some err)]),
          σ')
    /\ frame (leaves w) σ σ'
    /\ trace σ'
       = before ++ map (fun l => (l, CallWriteHeader 500)) (leaves w) ++ after.
Proof.
  intros Hwf. unfold handleInternalError.
  destruct (header_mutation_frame w
              (fun m => Header.Set_ m "Content-Type" "text/plain") σ Hwf)
    as (σ1 & E1 & Hf1).
  assert (E1' : forall B (k : M B),
            bind (ResponseWriter_Header w)
                 (fun h => bind (Header_update h
                                   (fun m => Header.Set_ m "Content-Type"
                                                         "text/plain"))
                                (fun _ => k)) σ
            = k σ1).
  { intros B k. unfold bind in E1 |- *.
    destruct (ResponseWriter_Header w σ) as [[h σ0]|]; [|done].
    by rewrite E1. }
  rewrite E1'.
  destruct (WriteHeader_calls w 500 σ1) as (σ2 & E2 & Htr2 & Hf2 & _).
  { eapply valid_status_accepts; [by unfold valid_status|reflexivity|].
    destruct Hf1 as [-> _]. exact Hwf. }
  rewrite (bind_Ok _ _ _ _ _ E2).
  destruct (Write_calls w (bytes_of_string (Error err)) σ2)
    as (res & σ3 & calls & E3 & Hf3 & Htr3).
  { destruct Hf2 as [-> _]. destruct Hf1 as [-> _]. exact Hwf. }
  rewrite (bind_Ok _ _ _ _ _ E3).
  exists σ3, (trace σ1), calls. split; [done|]. split.
  - eapply frame_twice; [|exact Hf3]. by eapply frame_twice.
  - by rewrite Htr3, Htr2, <- app_assoc.
Qed.

End FurtherHandler.

(** ** The object of the client *)

Section ClientSteps.
Context `{GoStdlib}.

Lemma sink_headers_with_headers s h : sink_headers (with_headers s h) = h.
Proof. by destruct s. Qed.

Lemma with_headers_twice s h h' :
  with_headers (with_headers s h) h' = with_headers s h'.
Proof. by destruct s. Qed.

Lemma with_headers_same s : with_headers s (sink_headers s) = s.
Proof. by destruct s as [[]|[]]. Qed.

Lemma committed_after_WriteHeader s code : committed (after_WriteHeader s code).
Proof. destruct s; cbn; [apply with_status_wroteHeader|done]. Qed.

Lemma committed_after_Write s data :
  committed s -> committed (after_Write s data).
Proof. by destruct s. Qed.

(** The three calls on a stored object of any kind. *)
Lemma Sink_header_mutation l s f σ :
  sinks σ !! l = Some s ->
  bind (ResponseWriter_Header (SinkAt l)) (fun h => Header_update h f) σ
  = Ok (tt, mkWorld (<[l := after_headers s f]> (sinks σ))
                    (trace σ ++ [(l, CallHeader)])).
Proof.
  intros Hs. cbn [ResponseWriter_Header].
  rewrite (bind_Ok _ _ _ _ _ (Sink_Header_eq l s σ Hs)).
  by rewrite (Header_update_eq l s).
Qed.

Lemma Sink_WriteHeader_valid l s code σ :
  sinks σ !! l = Some s -> valid_status code ->
  Sink_WriteHeader l code σ
  = Ok (tt, mkWorld (<[l := after_WriteHeader s code]> (sinks σ))
                    (trace σ ++ [(l, CallWriteHeader code)])).
Proof.
  intros Hs Hv. destruct s as [rw|m].
  - eapply Sink_WriteHeader_recorder; [done|].
    by apply Recorder_WriteHeader_valid.
  - rewrite (Sink_WriteHeader_mock l m code σ Hs). cbn.
    by rewrite list_insert_id.
Qed.

Lemma Sink_Write_committed l s data σ :
  sinks σ !! l = Some s -> committed s ->
  Sink_Write l data σ
  = Ok (write_result s data,
        mkWorld (<[l := after_Write s data]> (sinks σ))
                (trace σ ++ [(l, CallWrite data)])).
Proof.
  intros Hs Hc. destruct s as [rw|m].
  - eapply Sink_Write_recorder; [done|].
    by apply Recorder_Write_after_status.
  - by apply Sink_Write_mock.
Qed.

Lemma holds_both_recorder n rw rw' c s σ tr :
  holds_both n rw c s σ ->
  holds_both n rw' c s (mkWorld (<[n := RecorderSink rw']> (sinks σ)) tr).
Proof.
  intros (Hrec & Hc & Hs). split; [by apply (holds_recorder_store n rw)|].
  split; [done|]. cbn. rewrite list_lookup_insert_ne; [done|lia].
Qed.

Lemma holds_both_client n rw c s s' σ tr :
  holds_both n rw c s σ ->
  holds_both n rw c s' (mkWorld (<[c := s']> (sinks σ)) tr).
Proof.
  intros ([Hlen Hrw] & Hc & Hs). split; [split|split]; cbn.
  - by rewrite length_insert.
  - rewrite list_lookup_insert_ne; [done|lia].
  - done.
  - apply list_lookup_insert_eq. lia.
Qed.

(** [mw.headersAdd(key, value)] on the recorder and the client. *)
Lemma both_headersAdd n rw c s key value σ :
  holds_both n rw c s σ ->
  exists σ',
    headersAdd [SinkAt n; SinkAt c] key value σ = Ok (tt, σ')
    /\ holds_both n (with_HeaderMap rw (Header.Add (HeaderMap rw) key value))
                  c (with_headers s (Header.Add (sink_headers s) key value)) σ'
    /\ trace σ' = trace σ ++ [(n, CallHeader); (c, CallHeader)].
Proof.
  intros Hb. pose proof Hb as ([Hlen Hrw] & Hc & Hs).
  unfold headersAdd. rewrite for_each_cons.
  set (f := fun m : Header.t => Header.Add m key value).
  rewrite (bind_Ok _ _ _ _ _ (Sink_header_mutation n _ f σ Hrw)).
  apply (holds_both_recorder n rw (with_HeaderMap rw (f (HeaderMap rw))) c s σ
           (trace σ ++ [(n, CallHeader)])) in Hb.
  pose proof Hb as (_ & _ & Hs1).
  rewrite for_each_cons.
  rewrite (bind_Ok _ _ _ _ _ (Sink_header_mutation c _ f _ Hs1)).
  eexists. split; [reflexivity|].
  split; [by apply (holds_both_client n _ c s)|].
  cbn. by rewrite <- app_assoc.
Qed.

(** The header loop of the handler. *)
Lemma both_header_loop n c (hs : list (string * list string)) :
  forall rw s σ,
    holds_both n rw c s σ ->
    exists σ',
      for_each (fun '(header, values) =>
                  for_each (fun value =>
                              headersAdd [SinkAt n; SinkAt c] header value)
                           values) hs σ = Ok (tt, σ')
      /\ holds_both n (with_HeaderMap rw (add_headers hs (HeaderMap rw)))
                    c (after_headers s (add_headers hs)) σ'
      /\ trace σ' = trace σ ++ header_calls n c hs.
Proof.
  assert (Hinner : forall key values rw s σ,
            holds_both n rw c s σ ->
            exists σ',
              for_each (fun value =>
                          headersAdd [SinkAt n; SinkAt c] key value)
                       values σ = Ok (tt, σ')
              /\ holds_both n
                   (with_HeaderMap rw
                      (fold_left (fun m value => Header.Add m key value)
                                 values (HeaderMap rw)))
                   c
                   (with_headers s
                      (fold_left (fun m value => Header.Add m key value)
                                 values (sink_headers s))) σ'
              /\ trace σ'
                 = trace σ
                   ++ flat_map (fun _ : string =>
                                  [(n, CallHeader); (c, CallHeader)]) values).
  { intros key values. induction values as [|v vs IH]; intros rw s σ Hb.
    - exists σ. split; [done|]. cbn [fold_left flat_map].
      rewrite with_headers_same, app_nil_r. split; [by destruct rw|done].
    - destruct (both_headersAdd n rw c s key v σ Hb) as (σ1 & E1 & Hb1 & Htr1).
      rewrite for_each_cons, (bind_Ok _ _ _ _ _ E1).
      destruct (IH _ _ _ Hb1) as (σ2 & E2 & Hb2 & Htr2).
      exists σ2. split; [exact E2|].
      rewrite sink_headers_with_headers, with_headers_twice in Hb2.
      split; [exact Hb2|].
      rewrite Htr2, Htr1. cbn [flat_map]. by rewrite <- app_assoc. }
  unfold after_headers, header_calls.
  induction hs as [|[key values] hs IH]; intros rw s σ Hb.
  - exists σ. split; [done|]. cbn [add_headers fold_left flat_map].
    rewrite with_headers_same, app_nil_r. split; [by destruct rw|done].
  - destruct (Hinner key values rw s σ Hb) as (σ1 & E1 & Hb1 & Htr1).
    rewrite for_each_cons, (bind_Ok _ _ _ _ _ E1).
    destruct (IH _ _ _ Hb1) as (σ2 & E2 & Hb2 & Htr2).
    exists σ2. split; [exact E2|].
    rewrite sink_headers_with_headers, with_headers_twice in Hb2.
    split; [exact Hb2|].
    rewrite Htr2, Htr1. cbn [flat_map]. by rewrite <- app_assoc.
Qed.

(** [mw.WriteHeader(code)] on the recorder and the client. *)
Lemma both_WriteHeader n rw c s code σ :
  holds_both n rw c s σ -> valid_status code ->
  exists σ',
    ResponseWriter_WriteHeader (MultiTarget [SinkAt n; SinkAt c]) code σ
    = Ok (tt, σ')
    /\ holds_both n (with_status rw code) c (after_WriteHeader s code) σ'
    /\ trace σ'
       = trace σ ++ [(n, CallWriteHeader code); (c, CallWriteHeader code)].
Proof.
  intros Hb Hv. pose proof Hb as ([Hlen Hrw] & Hc & Hs).
  cbn [ResponseWriter_WriteHeader]. rewrite for_each_cons.
  cbn [ResponseWriter_WriteHeader].
  rewrite (bind_Ok _ _ _ _ _ (Sink_WriteHeader_valid n _ code σ Hrw Hv)).
  apply (holds_both_recorder n rw (with_status rw code) c s σ
           (trace σ ++ [(n, CallWriteHeader code)])) in Hb.
  pose proof Hb as (_ & _ & Hs1).
  rewrite for_each_cons. cbn [ResponseWriter_WriteHeader].
  rewrite (bind_Ok _ _ _ _ _ (Sink_WriteHeader_valid c _ code _ Hs1 Hv)).
  eexists. split; [reflexivity|].
  split; [by apply (holds_both_client n _ c s)|].
  cbn. by rewrite <- app_assoc.
Qed.

(** [mw.Write(data)] on the recorder and the client, after the status:
    the result is the one of the client. *)
Lemma both_Write n rw c s data σ :
  holds_both n rw c s σ -> wroteHeader rw = true -> committed s ->
  exists σ',
    ResponseWriter_Write (MultiTarget [SinkAt n; SinkAt c]) data σ
    = Ok (write_result s data, σ')
    /\ holds_both n (with_written rw data) c (after_Write s data) σ'
    /\ trace σ' = trace σ ++ [(n, CallWrite data); (c, CallWrite data)].
Proof.
  intros Hb Hw Hcm. pose proof Hb as ([Hlen Hrw] & Hc & Hs).
  cbn [ResponseWriter_Write]. rewrite write_each_cons.
  cbn [ResponseWriter_Write].
  rewrite (bind_Ok _ _ _ _ _
             (Sink_Write_committed n (RecorderSink rw) data σ Hrw Hw)).
  cbn [write_result snd after_Write].
  apply (holds_both_recorder n rw (with_written rw data) c s σ
           (trace σ ++ [(n, CallWrite data)])) in Hb.
  pose proof Hb as (_ & _ & Hs1).
  rewrite write_each_cons. cbn [ResponseWriter_Write].
  rewrite (bind_Ok _ _ _ _ _ (Sink_Write_committed c s data _ Hs1 Hcm)).
  eexists. split; [by destruct ((write_result s data).2)|].
  split; [by apply (holds_both_client n _ c s)|].
  cbn. by rewrite <- app_assoc.
Qed.

(** [srv.handleInternalError(mw, serverRecord, err)] on the recorder and
    the client. *)
Lemma both_handleInternalError srv n rw c s serverRecord err σ :
  holds_both n rw c s σ ->
  exists σ',
    handleInternalError srv (MultiTarget [SinkAt n; SinkAt c]) serverRecord err σ
    = Ok (mkHTTPTestServer
            (responses srv)
            (records srv
               ++ [mkServerRecord (Request serverRecord) (Response serverRecord)
                                  (RequestBody serverRecord) (Some err)]),
          σ')
    /\ holds_both n (recorder_after_error rw err) c (client_after_error s err) σ'
    /\ trace σ'
       = trace σ ++ error_calls n (SinkAt c) err
         ++ [(c, CallWrite (bytes_of_string (Error err)))].
Proof.
  intros Hb. pose proof Hb as ([Hlen Hrw] & Hc & Hs).
  unfold handleInternalError. cbn [ResponseWriter_Header].
  rewrite (bind_Ok _ _ _ _ _ (Sink_Header_eq n _ σ Hrw)).
  set (rw1 := with_HeaderMap rw (Header.Set_ (HeaderMap rw) "Content-Type"
                                             "text/plain")).
  set (σ1 := mkWorld (<[n := RecorderSink rw1]> (sinks σ))
                     (trace σ ++ [(n, CallHeader)])).
  assert (E1 : Header_update (Some n)
                 (fun m => Header.Set_ m "Content-Type" "text/plain")
                 (mkWorld (sinks σ) (trace σ ++ [(n, CallHeader)]))
               = Ok (tt, σ1)).
  { by rewrite (Header_update_eq n (RecorderSink rw)). }
  rewrite (bind_Ok _ _ _ _ _ E1).
  assert (Hb1 : holds_both n rw1 c s σ1)
    by (apply (holds_both_recorder n rw); exact Hb).
  destruct (both_WriteHeader n rw1 c s 500 σ1 Hb1) as (σ2 & E2 & Hb2 & Htr2);
    [by unfold valid_status|].
  rewrite (bind_Ok _ _ _ _ _ E2).
  destruct (both_Write n _ c _ (bytes_of_string (Error err)) σ2 Hb2)
    as (σ3 & E3 & Hb3 & Htr3);
    [apply with_status_wroteHeader|apply committed_after_WriteHeader|].
  rewrite (bind_Ok _ _ _ _ _ E3).
  exists σ3. split; [done|]. split; [exact Hb3|].
  rewrite Htr3, Htr2. unfold error_calls. cbn [trace σ1 leaves map app].
  by rewrite <- !app_assoc.
Qed.

(** The handler with a stored object as the writer of the client, case
    by case on what reading and parsing the request give. *)
Lemma ServeHTTP_client (srv : HTTPTestServer) (c : nat) (s : Sink)
  (r : http_Request) (σ : World) :
  sinks σ !! c = Some s ->
  match read_and_parse r with
  | Panic msg => True
  | Ok (r', Some werr) =>
      exists σ',
        ServeHTTP srv (SinkAt c) r σ
        = Ok (mkHTTPTestServer
                (responses srv)
                (records srv
                   ++ [mkServerRecord (Some r') (Some (length (sinks σ)))
                                      (tee_buffer r') (Some werr)]),
              σ')
        /\ holds_both (length (sinks σ)) (failed_recorder werr)
                      c (client_after_error s werr) σ'
        /\ trace σ'
           = trace σ ++ error_calls (length (sinks σ)) (SinkAt c) werr
             ++ [(c, CallWrite (bytes_of_string (Error werr)))]
  | Ok (r', None) =>
      valid_status (Status (ServeHTTP_response srv).1) ->
      exists σ',
        ServeHTTP srv (SinkAt c) r σ
        = Ok (mkHTTPTestServer
                (responses (ServeHTTP_response srv).2)
                (records srv
                   ++ [mkServerRecord
                         (Some r') (Some (length (sinks σ))) (tee_buffer r')
                         (client_served (ServeHTTP_response srv).1 s).2]),
              σ')
        /\ holds_both (length (sinks σ))
                      (served_recorder
                         (ServeHTTP_response srv).1
                         (client_served (ServeHTTP_response srv).1 s).2)
                      c (client_served (ServeHTTP_response srv).1 s).1 σ'
        /\ trace σ'
           = trace σ
             ++ served_calls (length (sinks σ)) c (ServeHTTP_response srv).1
                             (client_served (ServeHTTP_response srv).1 s).2
  end.
Proof.
  intros Hs. set (n := length (sinks σ)).
  set (σ1 := mkWorld (sinks σ ++ [RecorderSink NewRecorder]) (trace σ)).
  assert (Hb1 : holds_both n NewRecorder c s σ1).
  { pose proof (lookup_lt_Some _ _ _ Hs) as Hc. split; [split|split]; cbn.
    - rewrite length_app. cbn. lia.
    - by apply list_lookup_middle.
    - done.
    - by rewrite lookup_app_l. }
  assert (Halloc : alloc (RecorderSink NewRecorder) σ = Ok (n, σ1)) by done.
  unfold ServeHTTP. rewrite (bind_Ok _ _ _ _ _ Halloc).
  change (newMultiTargetHTTPResponseWriter [SinkAt n; SinkAt c])
    with (MultiTarget [SinkAt n; SinkAt c]).
  unfold read_and_parse.
  destruct (ServeHTTP_readBody r) as [[r1 [err|]]|msg]; cbn [lift bind].
  - apply (both_handleInternalError srv n NewRecorder c s
             (mkServerRecord (Some r1) (Some n) (tee_buffer r1) None)
             _ σ1 Hb1).
  - destruct (ParseForm r1) as [[r2 [err|]]|msg]; cbn [lift bind].
    + apply (both_handleInternalError srv n NewRecorder c s
               (mkServerRecord (Some r2) (Some n) (tee_buffer r2) None)
               _ σ1 Hb1).
    + destruct (ServeHTTP_response srv) as [resp srv1] eqn:Esel.
      cbn [fst snd]. intros Hv.
      assert (Hrecs : records srv1 = records srv).
      { unfold ServeHTTP_response in Esel. injection Esel as _ <-.
        by destruct (1 <? length (responses srv))%nat. }
      destruct (both_header_loop n c (Headers resp) NewRecorder s σ1 Hb1)
        as (σ2 & E2 & Hb2 & Htr2).
      rewrite (bind_Ok _ _ _ _ _ E2).
      destruct (both_WriteHeader n _ c _ (Status resp) σ2 Hb2 Hv)
        as (σ3 & E3 & Hb3 & Htr3).
      rewrite (bind_Ok _ _ _ _ _ E3).
      unfold client_served, served_recorder, served_calls.
      destruct (Body resp) as [|b body] eqn:Ebody.
      * cbn [length Nat.ltb Nat.leb bind ret fst snd].
        exists σ3. split; [by rewrite Hrecs|]. split; [exact Hb3|].
        rewrite Htr3, Htr2. cbn [trace σ1 app].
        by rewrite <- app_assoc.
      * destruct (both_Write n _ c _ (b :: body) σ3 Hb3)
          as (σ4 & E4 & Hb4 & Htr4);
          [apply with_status_wroteHeader|apply committed_after_WriteHeader|].
        change (0 <? length (b :: body))%nat with true. cbn iota.
        destruct (write_result _ (b :: body)) as [k werr] eqn:Ew.
        rewrite (bind_Ok _ _ _ _ _
                   (bind_Ok _ (fun x => let '(_, err) := x in ret err)
                            _ _ _ E4)).
        destruct werr as [cause|]; cbn [ret fst snd].
        -- destruct (both_handleInternalError srv1 n _ c _
                       (mkServerRecord (Some r2) (Some n) (tee_buffer r2) None)
                       (Errorf_w write_failure_prefix cause) σ4 Hb4)
             as (σ5 & E5 & Hb5 & Htr5).
           exists σ5. split; [|split; [exact Hb5|]].
           { etrans; [exact E5|]. cbn. by rewrite Hrecs. }
           rewrite Htr5, Htr4, Htr3, Htr2. cbn [trace σ1].
           by rewrite <- !app_assoc.
        -- exists σ4. split; [by rewrite Hrecs|]. split; [exact Hb4|].
           rewrite Htr4, Htr3, Htr2. cbn [trace σ1].
           by rewrite app_nil_r, <- !app_assoc.
    + done.
  - done.
Qed.

End ClientSteps.

Section ClientTheorems.
Context `{GoStdlib}.

Lemma sink_headers_after_WriteHeader s code :
  sink_headers (after_WriteHeader s code) = sink_headers s.
Proof.
  destruct s as [rw|m]; [|done]. cbn. unfold with_status.
  by destruct (wroteHeader rw).
Qed.

Lemma sink_headers_after_Write s data :
  sink_headers (after_Write s data) = sink_headers s.
Proof. by destruct s. Qed.

Lemma sink_headers_client_after_error s err :
  sink_headers (client_after_error s err) = sink_headers s.
Proof.
  unfold client_after_error.
  by rewrite sink_headers_after_Write, sink_headers_after_WriteHeader.
Qed.

Lemma sink_headers_client_served resp s :
  sink_headers (client_served resp s).1
  = add_headers (Headers resp) (sink_headers s).
Proof.
  unfold client_served.
  assert (E : sink_headers
                (after_WriteHeader (after_headers s (add_headers (Headers resp)))
                                   (Status resp))
              = add_headers (Headers resp) (sink_headers s)).
  { rewrite sink_headers_after_WriteHeader. unfold after_headers.
    apply sink_headers_with_headers. }
  destruct (Body resp) as [|b body]; [exact E|].
  destruct (write_result _ (b :: body)) as [k [cause|]]; cbn [fst snd].
  - by rewrite sink_headers_client_after_error, sink_headers_after_Write.
  - by rewrite sink_headers_after_Write.
Qed.

(** X7. The header map of the client's writer, a stored object of any
    kind. A request that is read and parsed leaves it with the values of
    the response added to the ones it had, key by key, the values it had
    first; nothing else is set on it, also when the write of the body
    fails. A request whose reading or parsing fails leaves it as it was:
    the content type [text/plain] of the error response is set on the
    recorder only. *)
Theorem ServeHTTP_client_header_map (srv : HTTPTestServer) (c : nat) (s : Sink)
  (r : http_Request) (σ : World) :
  sinks σ !! c = Some s ->
  readable (ReqBody r) = true ->
  Forall (fun resp => valid_status (Status resp)) (responses srv) ->
  exists r' werr srv' σ' s',
    read_and_parse r = Ok (r', werr)
    /\ ServeHTTP srv (SinkAt c) r σ = Ok (srv', σ')
    /\ sinks σ' !! c = Some s'
    /\ sink_headers s'
       = match werr with
         | Some _ => sink_headers s
         | None =>
             add_headers (Headers (ServeHTTP_response srv).1) (sink_headers s)
         end.
Proof.
  intros Hs Hr Hv.
  destruct (read_and_parse_readable r Hr) as (r' & werr & Erp).
  pose proof (ServeHTTP_client srv c s r σ Hs) as Hcases.
  rewrite Erp in Hcases. exists r', werr.
  destruct werr as [werr|].
  - destruct Hcases as (σ' & E & (_ & _ & Hs') & _).
    eexists _, σ', _. split; [done|]. split; [exact E|].
    split; [exact Hs'|]. apply sink_headers_client_after_error.
  - destruct Hcases as (σ' & E & (_ & _ & Hs') & _).
    { by apply ServeHTTP_response_valid. }
    eexists _, σ', _. split; [done|]. split; [exact E|].
    split; [exact Hs'|]. apply sink_headers_client_served.
Qed.




End ClientTheorems.

(** ** The header maps of the targets *)

Lemma Header_Add_lookup (h : Header.t) (key value k : string) :
  Header.Add h key value !! k = added h key value k.
Proof.
  unfold Header.Add, added.
  destruct (decide (k = Header.CanonicalMIMEHeaderKey key)) as [->|Hne].
  - by rewrite lookup_insert_eq.
  - by rewrite lookup_insert_ne.
Qed.

Section HeaderTargets.
Context `{GoStdlib}.

(** X10. [headersAdd] on targets that are distinct stored objects:
    [Header()] is called once on each, in order; the header map of each
    gets [value] under the canonical form of [key], after the values it
    had there, its other keys keeping their values; nothing else of the
    objects changes, and no other object does. *)
Theorem headersAdd_every_target (ls : list nat) (key value : string) (σ : World) :
  NoDup ls ->
  Forall (fun l => (l < length (sinks σ))%nat) ls ->
  exists σ',
    headersAdd (map SinkAt ls) key value σ = Ok (tt, σ')
    /\ trace σ' = trace σ ++ map (fun l => (l, CallHeader)) ls
    /\ frame ls σ σ'
    /\ forall l s,
         l ∈ ls -> sinks σ !! l = Some s ->
         sinks σ' !! l
         = Some (with_headers s (Header.Add (sink_headers s) key value))
         /\ forall k,
              Header.Add (sink_headers s) key value !! k
              = added (sink_headers s) key value k.
Proof.
  unfold headersAdd. set (f := fun m : Header.t => Header.Add m key value).
  revert σ. induction ls as [|l ls IH]; intros σ Hnd Hlt.
  - exists σ. split; [done|]. split; [by rewrite app_nil_r|].
    split; [apply frame_refl|]. intros l s Hl. by apply elem_of_nil in Hl.
  - apply NoDup_cons in Hnd as [Hl Hnd].
    apply Forall_cons in Hlt as [Hlt Hlts].
    destruct (lookup_lt_is_Some_2 (sinks σ) l Hlt) as [s0 Hs0].
    cbn [map]. rewrite for_each_cons.
    rewrite (bind_Ok _ _ _ _ _ (Sink_header_mutation l s0 f σ Hs0)).
    set (σ1 := mkWorld (<[l := after_headers s0 f]> (sinks σ))
                       (trace σ ++ [(l, CallHeader)])).
    destruct (IH σ1 Hnd) as (σ2 & E2 & Htr2 & Hf2 & Hall2).
    { cbn. by rewrite length_insert. }
    exists σ2. split; [exact E2|]. split.
    { rewrite Htr2. cbn. by rewrite <- app_assoc. }
    split.
    { change (l :: ls) with ([l] ++ ls).
      eapply frame_trans; [|exact Hf2]. apply frame_store. }
    intros l' s Hl' Hs. split; [|intros k; apply Header_Add_lookup].
    apply elem_of_cons in Hl' as [->|Hl'].
    + destruct Hf2 as [_ Hf2]. rewrite Hf2 by done. cbn.
      rewrite list_lookup_insert_eq by done.
      rewrite Hs0 in Hs. by injection Hs as ->.
    + apply Hall2; [done|]. cbn.
      rewrite list_lookup_insert_ne; [done|]. by intros ->.
Qed.

(** X11. [handleInternalError] with a recorder as its writer, on any
    server, record and error: [Header()], [WriteHeader(500)] and [Write]
    of the text of the error are called on it, in this order, and no
    other object changes. The recorder shows the text after the body it
    had. If it had no status it shows status 500 and its headers with
    [Content-Type] replaced by [text/plain]; if it had one it shows the
    status and the headers it showed before. *)
Theorem handleInternalError_on_recorder (srv : HTTPTestServer) (l : nat)
  (rw : ResponseRecorder) (body : bytes) (serverRecord : ServerRecord)
  (err : error) (σ : World) :
  sinks σ !! l = Some (RecorderSink rw) ->
  RecBody rw = Some body ->
  exists σ' rw',
    handleInternalError srv (SinkAt l) serverRecord err σ
    = Ok (mkHTTPTestServer
            (responses srv)
            (records srv
               ++ [mkServerRecord (Request serverRecord) (Response serverRecord)
                                  (RequestBody serverRecord) (Some err)]),
          σ')
    /\ sinks σ' !! l = Some (RecorderSink rw')
    /\ frame [l] σ σ'
    /\ trace σ'
       = trace σ ++ [(l, CallHeader); (l, CallWriteHeader 500);
                     (l, CallWrite (bytes_of_string (Error err)))]
    /\ RespBody (Result rw') = body ++ bytes_of_string (Error err)
    /\ (wroteHeader rw = false ->
        StatusCode (Result rw') = 500
        /\ RespHeader (Result rw')
           = Header.Set_ (HeaderMap rw) "Content-Type" "text/plain")
    /\ (wroteHeader rw = true -> is_Some (snapHeader rw) ->
        StatusCode (Result rw') = StatusCode (Result rw)
        /\ RespHeader (Result rw') = RespHeader (Result rw)).
Proof.
  intros Hs Hbody. pose proof (lookup_lt_Some _ _ _ Hs) as Hlt.
  set (f := fun m : Header.t => Header.Set_ m "Content-Type" "text/plain").
  set (data := bytes_of_string (Error err)).
  set (σ1 := mkWorld (<[l := after_headers (RecorderSink rw) f]> (sinks σ))
                     (trace σ ++ [(l, CallHeader)])).
  assert (E1 : forall B (k : M B),
            bind (ResponseWriter_Header (SinkAt l))
                 (fun h => bind (Header_update h f) (fun _ => k)) σ
            = k σ1).
  { intros B k. pose proof (Sink_header_mutation l _ f σ Hs) as E.
    unfold bind in E |- *.
    destruct (ResponseWriter_Header (SinkAt l) σ) as [[h σ0]|]; [|done].
    by rewrite E. }
  assert (Hs1 : sinks σ1 !! l = Some (after_headers (RecorderSink rw) f))
    by (by apply list_lookup_insert_eq).
  unfold handleInternalError. fold f data. rewrite E1.
  cbn [ResponseWriter_WriteHeader ResponseWriter_Write].
  assert (H500 : valid_status 500) by (unfold valid_status; lia).
  rewrite (bind_Ok _ _ _ _ _ (Sink_WriteHeader_valid l _ 500 σ1 Hs1 H500)).
  set (s2 := after_WriteHeader (after_headers (RecorderSink rw) f) 500).
  set (σ2 := mkWorld (<[l := s2]> (sinks σ1))
                     (trace σ1 ++ [(l, CallWriteHeader 500)])).
  assert (Hs2 : sinks σ2 !! l = Some s2).
  { apply list_lookup_insert_eq. cbn. by rewrite length_insert. }
  rewrite (bind_Ok _ _ _ _ _
             (Sink_Write_committed l s2 data σ2 Hs2
                (committed_after_WriteHeader _ 500))).
  eexists _, _. split; [reflexivity|]. split.
  { cbn. apply list_lookup_insert_eq. by rewrite !length_insert. }
  split.
  { assert (F1 : frame [l] σ σ1) by apply frame_store.
    assert (F2 : frame [l] σ1 σ2) by apply frame_store.
    eapply frame_twice; [eapply frame_twice; [exact F1|exact F2]|].
    apply (frame_store l _ σ2). }
  split; [cbn; by rewrite <- !app_assoc|].
  unfold Result, with_written, with_status. cbn.
  destruct (wroteHeader rw) eqn:Ew; cbn; rewrite Hbody; cbn.
  - split; [done|]. split; [done|]. intros _ [snap ->]. done.
  - split; [done|]. split; [done|]. done.
Qed.

End HeaderTargets.

(** ** The form of the recorded request *)

Section RecordedForm.
Context `{GoStdlib}.

(** The values [ParseForm] gives from a body it reads without failure. *)
Lemma ParseForm_values r r' :
  ParseForm r = Ok (r', None) ->
  parses_body r = true ->
  exists b body',
    ReadAll (Some (maxFormSize + 1)%N) (ReqBody r) = Ok (b, None, body')
    /\ ReqBody r' = body'
    /\ PostForm r' = Some (URL.ParseQuery (string_of_bytes b)).1.
Proof.
  unfold ParseForm, parses_body.
  change (String.eqb (Method r) "POST" || String.eqb (Method r) "PUT"
          || String.eqb (Method r) "PATCH") with (form_method (Method r)).
  destruct (PostForm r) as [pf|] eqn:Epf; [done|].
  destruct (form_method (Method r)); [|done]. cbn [andb].
  unfold parsePostForm.
  destruct (ReqBody r) as [|pending fault|src buf] eqn:Ebody; [done| |];
    cbn [not_nil andb];
    destruct (mime_ParseMediaType _) as [ct err]; cbn [fst];
    (destruct (String.eqb ct formContentType); [|done]);
    (destruct (ReadAll _ _) as [[[b e0] body']|]; [|done]);
    destruct e0 as [e0|].
  all: cbn [Form ReqBody RawQuery PostForm Method ReqHeader default].
  all: try (destruct (_ <? _)%N).
  all: try (destruct (URL.ParseQuery (string_of_bytes b)) as [vs e] eqn:Eq).
  all: cbn [Form ReqBody RawQuery PostForm Method ReqHeader default].
  all: destruct (Form r);
    [|destruct (match RawQuery r with Some q => URL.ParseQuery q | None => _ end)
        as [nv e']].
  all: intros Hres _; try discriminate Hres.
  all: injection Hres as <- _; exists b, body'; by rewrite Eq.
Qed.

(** What [ParseForm] leaves as the post form when it does not read the
    body. *)
Lemma ParseForm_no_values r r' e :
  ParseForm r = Ok (r', e) ->
  PostForm r = None ->
  parses_body r = false ->
  PostForm r' = Some ∅.
Proof.
  unfold ParseForm, parses_body.
  change (String.eqb (Method r) "POST" || String.eqb (Method r) "PUT"
          || String.eqb (Method r) "PATCH") with (form_method (Method r)).
  intros Hres Epf. rewrite Epf in Hres |- *. revert Hres.
  destruct (form_method (Method r)); cbn [andb].
  - unfold parsePostForm.
    destruct (ReqBody r) as [|pending fault|src buf] eqn:Ebody;
      cbn [not_nil andb].
    2, 3: destruct (mime_ParseMediaType _) as [ct err]; cbn [fst];
      (destruct (String.eqb ct formContentType); [done|]).
    all: cbn [Form ReqBody RawQuery PostForm Method ReqHeader default].
    all: destruct (Form r);
      [|destruct (match RawQuery r with Some q => URL.ParseQuery q | None => _ end)
          as [nv e']].
    all: by intros [= <- _].
  - cbn [Form ReqBody RawQuery PostForm Method ReqHeader default].
    destruct (Form r);
      [|destruct (match RawQuery r with Some q => URL.ParseQuery q | None => _ end)
          as [nv e']].
    all: by intros [= <- _].
Qed.

(** A body read to its end has nothing more to deliver. *)
Lemma ReadAll_drained rc data err rc' n :
  ReadAll None rc = Ok (data, err, rc') ->
  (0 < n)%N ->
  exists rc'', ReadAll (Some n) rc' = Ok ([], err, rc'').
Proof.
  intros Hread Hn. revert data err rc' Hread.
  induction rc as [|pending fault|src IH buf]; intros data err rc'; [done| |].
  - intros [= <- <- <-]. cbn.
    change (N.of_nat 0) with 0%N.
    destruct (N.leb_spec n 0); [lia|]. by eexists.
  - cbn. destruct (ReadAll None src) as [[[d e] src']|] eqn:E; [|done].
    intros [= <- <- <-]. destruct (IH _ _ _ eq_refl) as [src'' E'].
    cbn. rewrite E'. by eexists.
Qed.

(** X12. A request with the form content type, a method with a form
    body and no form parsed before, that is read and parsed without
    failure: the post form of the recorded request is the parse of the
    bytes the record holds as the body of the request. *)
Theorem recorded_form_is_the_parse_of_the_captured_body (srv : HTTPTestServer)
  (w : ResponseWriter) (r r' : http_Request) (σ : World) :
  Header.Get (ReqHeader r) "Content-Type" = "application/x-www-form-urlencoded" ->
  PostForm r = None ->
  form_method (Method r) = true ->
  (mime_ParseMediaType "application/x-www-form-urlencoded").1
  = "application/x-www-form-urlencoded" ->
  read_and_parse r = Ok (r', None) ->
  wf_writer (length (sinks σ)) w ->
  Forall (fun resp => valid_status (Status resp)) (responses srv) ->
  exists srv' σ' record,
    ServeHTTP srv w r σ = Ok (srv', σ')
    /\ records srv' = records srv ++ [record]
    /\ Request record = Some r'
    /\ PostForm r'
       = Some (URL.ParseQuery (string_of_bytes (RequestBody record))).1.
Proof.
  intros Hct Hpf Hm Hmime Erp Hwf Hv.
  pose proof (ServeHTTP_cases srv w r σ Hwf) as Hcases.
  rewrite Erp in Hcases.
  destruct Hcases as (werr & σ' & E & _); [by apply ServeHTTP_response_valid|].
  eexists _, σ', _. split; [exact E|]. cbn. split; [done|]. split; [done|].
  unfold read_and_parse in Erp.
  rewrite (ServeHTTP_readBody_form r Hct) in Erp.
  set (r1 := set_Body r (NopCloserTee (ReqBody r) [])) in Erp.
  destruct (ParseForm r1) as [[r2 [err|]]|] eqn:Eparse; [done| |done].
  injection Erp as ->.
  destruct (ParseForm_values r1 r' Eparse) as (b & body' & Eread & Hbody & Hform).
  { unfold parses_body. cbn [r1 set_Body PostForm Method ReqBody ReqHeader].
    rewrite Hpf, Hm, Hct. cbn [not_nil andb].
    change (String.eqb "application/x-www-form-urlencoded" EmptyString)
      with false.
    cbn iota. rewrite Hmime. apply String.eqb_refl. }
  rewrite Hform. unfold tee_buffer. rewrite Hbody.
  cbn [r1 set_Body ReqBody ReadAll] in Eread.
  destruct (ReadAll _ (ReqBody r)) as [[[d e] src']|]; [|done].
  by injection Eread as -> _ <-.
Qed.

(** X13. A request with any other content type, the form content type
    followed by a parameter included, and no form parsed before, that is
    read and parsed without failure: the post form of the recorded
    request is empty, whatever the body and the method, the body having
    been read to its end before the form parsing. *)
Theorem other_content_type_gives_no_post_form (srv : HTTPTestServer)
  (w : ResponseWriter) (r r' : http_Request) (σ : World) :
  Header.Get (ReqHeader r) "Content-Type" <> "application/x-www-form-urlencoded" ->
  PostForm r = None ->
  read_and_parse r = Ok (r', None) ->
  wf_writer (length (sinks σ)) w ->
  Forall (fun resp => valid_status (Status resp)) (responses srv) ->
  exists srv' σ' record,
    ServeHTTP srv w r σ = Ok (srv', σ')
    /\ records srv' = records srv ++ [record]
    /\ Request record = Some r'
    /\ PostForm r' = Some ∅.
Proof.
  intros Hct Hpf Erp Hwf Hv.
  pose proof (ServeHTTP_cases srv w r σ Hwf) as Hcases.
  rewrite Erp in Hcases.
  destruct Hcases as (werr & σ' & E & _); [by apply ServeHTTP_response_valid|].
  eexists _, σ', _. split; [exact E|]. cbn. split; [done|]. split; [done|].
  unfold read_and_parse in Erp.
  rewrite (ServeHTTP_readBody_other r Hct) in Erp.
  destruct (ReadAll None (ReqBody r)) as [[[data [e|]] body]|] eqn:Eread;
    [done| |done].
  set (r1 := set_Body r (NopCloserTee body data)) in Erp.
  destruct (ParseForm r1) as [[r2 [err|]]|] eqn:Eparse; [done| |done].
  injection Erp as ->.
  destruct (parses_body r1) eqn:Epb.
  - destruct (ParseForm_values r1 r' Eparse Epb)
      as (b & body' & Eread' & _ & Hform).
    destruct (ReadAll_drained _ _ _ _ (maxFormSize + 1)%N Eread) as [rc'' Ed];
      [done|].
    cbn [r1 set_Body ReqBody ReadAll] in Eread'. rewrite Ed in Eread'.
    injection Eread' as <- _. by rewrite Hform.
  - by apply (ParseForm_no_values r1 r' None Eparse).
Qed.

End RecordedForm.

(** ** The header map of a multi-target writer, the second listing, and
    [Clear] *)

Section FurtherWriters.
Context `{GoStdlib}.

(** X14. A mutation of the map that [Header()] of a multi-target writer
    returns. Without targets the map is a new one and the store is left
    as it is, with no call made. With targets that are stored objects,
    [Header()] is called on the first one only, and the mutation is on
    the header map of that object; the other targets are not called and
    keep their header maps, unlike with [headersAdd]. *)
Theorem Header_reaches_the_first_target_only (ls : list nat)
  (f : Header.t -> Header.t) (σ : World) :
  Forall (fun l => (l < length (sinks σ))%nat) ls ->
  exists σ',
    bind (ResponseWriter_Header
            (newMultiTargetHTTPResponseWriter (map SinkAt ls)))
         (fun h => Header_update h f) σ
    = Ok (tt, σ')
    /\ match ls with
       | [] => σ' = σ
       | l :: _ =>
           trace σ' = trace σ ++ [(l, CallHeader)]
           /\ frame [l] σ σ'
           /\ forall s, sinks σ !! l = Some s ->
                        sinks σ' !! l
                        = Some (with_headers s (f (sink_headers s)))
       end.
Proof.
  intros Hlt. destruct ls as [|l ls].
  - exists σ. split; [by destruct σ|done].
  - apply Forall_cons in Hlt as [Hlt _].
    destruct (lookup_lt_is_Some_2 (sinks σ) l Hlt) as [s0 Hs0].
    change (ResponseWriter_Header
              (newMultiTargetHTTPResponseWriter (map SinkAt (l :: ls))))
      with (ResponseWriter_Header (SinkAt l)).
    rewrite (Sink_header_mutation l s0 f σ Hs0).
    eexists. split; [reflexivity|]. split; [done|].
    split; [apply frame_store|].
    intros s Hs. cbn. rewrite list_lookup_insert_eq by done.
    rewrite Hs0 in Hs. by injection Hs as ->.
Qed.

(** X16. [handleInternalError] as the second listing of the file has it,
    with a recorder as its writer: the record and the queue are as with
    the first listing, [WriteHeader(500)] and [Write] of the text of the
    error are the only calls, and the header map of the recorder is left
    as it was, so that a recorder without a status shows status 500 and
    the headers it had, with no [Content-Type] of the error response. *)
Theorem handleInternalError_second_listing_on_recorder (srv : HTTPTestServer)
  (l : nat) (rw : ResponseRecorder) (body : bytes)
  (serverRecord : ServerRecord) (err : error) (σ : World) :
  sinks σ !! l = Some (RecorderSink rw) ->
  RecBody rw = Some body ->
  exists σ' rw',
    handleInternalError_second_listing srv (SinkAt l) serverRecord err σ
    = Ok (mkHTTPTestServer
            (responses srv)
            (records srv
               ++ [mkServerRecord (Request serverRecord) (Response serverRecord)
                                  (RequestBody serverRecord) (Some err)]),
          σ')
    /\ sinks σ' !! l = Some (RecorderSink rw')
    /\ frame [l] σ σ'
    /\ trace σ'
       = trace σ ++ [(l, CallWriteHeader 500);
                     (l, CallWrite (bytes_of_string (Error err)))]
    /\ HeaderMap rw' = HeaderMap rw
    /\ RespBody (Result rw') = body ++ bytes_of_string (Error err)
    /\ (wroteHeader rw = false ->
        StatusCode (Result rw') = 500
        /\ RespHeader (Result rw') = HeaderMap rw).
Proof.
  intros Hs Hbody. pose proof (lookup_lt_Some _ _ _ Hs) as Hlt.
  set (data := bytes_of_string (Error err)).
  assert (H500 : valid_status 500) by (unfold valid_status; lia).
  unfold handleInternalError_second_listing. fold data.
  cbn [ResponseWriter_WriteHeader ResponseWriter_Write].
  rewrite (bind_Ok _ _ _ _ _ (Sink_WriteHeader_valid l _ 500 σ Hs H500)).
  set (s1 := after_WriteHeader (RecorderSink rw) 500).
  set (σ1 := mkWorld (<[l := s1]> (sinks σ))
                     (trace σ ++ [(l, CallWriteHeader 500)])).
  assert (Hs1 : sinks σ1 !! l = Some s1) by (by apply list_lookup_insert_eq).
  rewrite (bind_Ok _ _ _ _ _
             (Sink_Write_committed l s1 data σ1 Hs1
                (committed_after_WriteHeader _ 500))).
  eexists _, _. split; [reflexivity|]. split.
  { cbn. apply list_lookup_insert_eq. by rewrite !length_insert. }
  split.
  { assert (F1 : frame [l] σ σ1) by apply frame_store.
    eapply frame_twice; [exact F1|]. apply (frame_store l _ σ1). }
  split; [cbn; by rewrite <- !app_assoc|].
  unfold Result, with_written, with_status. cbn.
  destruct (wroteHeader rw) eqn:Ew; cbn; rewrite Hbody; cbn; done.
Qed.

End FurtherWriters.

(** X15. [Clear] leaves the server as a new one is: both queues are
    empty, whatever they held, in whichever order the two are cleared;
    the next pop returns nil, and the next response picked is the default
    one, which is not put in the queue. *)
Theorem Clear_gives_a_new_server (hts : HTTPTestServer) :
  Clear hts = NewHTTPTestServer
  /\ Clear hts = ClearPredefinedServerResponses (ClearServerRecords hts)
  /\ PopServerRecord (Clear hts) = (None, NewHTTPTestServer)
  /\ ServeHTTP_response (Clear hts)
     = (mkPredefinedServerResponse 404 [] [], NewHTTPTestServer).
Proof. by destruct hts. Qed.

(** ** Runs of the further properties *)


Lemma ServeHTTP_keeps_earlier_records_witness :
  exists srv' σ',
    ServeHTTP (H := go_std) server_A (SinkAt 1) (GET "") failing_client
    = Ok (srv', σ')
    /\ (forall l, (l < length (sinks failing_client))%nat ->
                  l ∉ leaves (SinkAt 1) ->
                  sinks σ' !! l = sinks failing_client !! l)
    /\ (forall j record l,
          records server_A !! j = Some record ->
          Response record = Some l ->
          (l < length (sinks failing_client))%nat -> l ∉ leaves (SinkAt 1) ->
          records srv' !! j = Some record
          /\ recorded σ' record = recorded failing_client record).
Proof.
  apply (ServeHTTP_keeps_earlier_records (H := go_std)).
  - reflexivity.
  - repeat constructor.
  - repeat constructor; unfold valid_status; cbn; lia.
Defined.

Lemma ServeHTTP_invalid_status_panics_witness :
  exists msg,
    ServeHTTP (H := go_std)
              (PushPredefinedServerResponse NewHTTPTestServer
                                            response_without_status)
              (SinkAt 0) (GET "") client_recorder
    = Panic msg.
Proof.
  eapply (ServeHTTP_invalid_status_panics (H := go_std)).
  - repeat constructor.
  - vm_compute. reflexivity.
  - unfold valid_status. cbn. lia.
Defined.

Lemma handleInternalError_any_writer_witness :
  exists σ' before after,
    handleInternalError (H := go_std) server_A
                        (MultiTarget [SinkAt 0; SinkAt 1]) blank_record PWNED
                        failing_client
    = Ok (mkHTTPTestServer
            (responses server_A)
            (records server_A
               ++ [mkServerRecord (Request blank_record) (Response blank_record)
                                  (RequestBody blank_record) (Some PWNED)]),
          σ')
    /\ frame (leaves (MultiTarget [SinkAt 0; SinkAt 1])) failing_client σ'
    /\ trace σ'
       = before
         ++ map (fun l => (l, CallWriteHeader 500))
                (leaves (MultiTarget [SinkAt 0; SinkAt 1]))
         ++ after.
Proof.
  apply (handleInternalError_any_writer (H := go_std)).
  repeat constructor.
Defined.

Lemma ServeHTTP_client_header_map_witness :
  exists r' werr srv' σ' s',
    read_and_parse (H := go_std) (GET "") = Ok (r', werr)
    /\ ServeHTTP (H := go_std) server_A (SinkAt 1) (GET "") failing_client
       = Ok (srv', σ')
    /\ sinks σ' !! 1%nat = Some s'
    /\ sink_headers s'
       = match werr with
         | Some _ => sink_headers (MockSink failing_mock)
         | None =>
             add_headers (Headers (ServeHTTP_response server_A).1)
                         (sink_headers (MockSink failing_mock))
         end.
Proof.
  apply (ServeHTTP_client_header_map (H := go_std)).
  - reflexivity.
  - reflexivity.
  - repeat constructor; unfold valid_status; cbn; lia.
Defined.



Lemma headersAdd_every_target_witness :
  exists σ',
    headersAdd (map SinkAt [0; 1]%nat) "x-trace" "abc" failing_client
    = Ok (tt, σ')
    /\ trace σ'
       = trace failing_client ++ map (fun l => (l, CallHeader)) [0; 1]%nat
    /\ frame [0; 1]%nat failing_client σ'
    /\ forall l s,
         l ∈ [0; 1]%nat -> sinks failing_client !! l = Some s ->
         sinks σ' !! l
         = Some (with_headers s (Header.Add (sink_headers s) "x-trace" "abc"))
         /\ forall k,
              Header.Add (sink_headers s) "x-trace" "abc" !! k
              = added (sink_headers s) "x-trace" "abc" k.
Proof.
  apply headersAdd_every_target.
  - compute_done.
  - repeat constructor.
Defined.

Lemma handleInternalError_on_recorder_witness :
  exists σ' rw',
    handleInternalError (H := go_std) server_A (SinkAt 0) blank_record PWNED
                        client_recorder
    = Ok (mkHTTPTestServer
            (responses server_A)
            (records server_A
               ++ [mkServerRecord (Request blank_record) (Response blank_record)
                                  (RequestBody blank_record) (Some PWNED)]),
          σ')
    /\ sinks σ' !! 0%nat = Some (RecorderSink rw')
    /\ frame [0%nat] client_recorder σ'
    /\ trace σ'
       = trace client_recorder
         ++ [(0%nat, CallHeader); (0%nat, CallWriteHeader 500);
             (0%nat, CallWrite (bytes_of_string (Error PWNED)))]
    /\ RespBody (Result rw') = [] ++ bytes_of_string (Error PWNED)
    /\ (wroteHeader NewRecorder = false ->
        StatusCode (Result rw') = 500
        /\ RespHeader (Result rw')
           = Header.Set_ (HeaderMap NewRecorder) "Content-Type" "text/plain")
    /\ (wroteHeader NewRecorder = true -> is_Some (snapHeader NewRecorder) ->
        StatusCode (Result rw') = StatusCode (Result NewRecorder)
        /\ RespHeader (Result rw') = RespHeader (Result NewRecorder)).
Proof.
  apply (handleInternalError_on_recorder (H := go_std)).
  - reflexivity.
  - reflexivity.
Defined.

Lemma recorded_form_is_the_parse_of_the_captured_body_witness :
  exists r',
    read_and_parse (H := go_std)
                   (POST "application/x-www-form-urlencoded" "b=2&a=1")
    = Ok (r', None)
    /\ exists srv' σ' record,
         ServeHTTP (H := go_std) server_A (SinkAt 0)
                   (POST "application/x-www-form-urlencoded" "b=2&a=1")
                   client_recorder
         = Ok (srv', σ')
         /\ records srv' = records server_A ++ [record]
         /\ Request record = Some r'
         /\ PostForm r'
            = Some (URL.ParseQuery (string_of_bytes (RequestBody record))).1.
Proof.
  eexists. split; [vm_compute; reflexivity|].
  apply (recorded_form_is_the_parse_of_the_captured_body (H := go_std)).
  - reflexivity.
  - reflexivity.
  - reflexivity.
  - reflexivity.
  - vm_compute. reflexivity.
  - repeat constructor.
  - repeat constructor; unfold valid_status; cbn; lia.
Defined.

Lemma other_content_type_gives_no_post_form_witness :
  exists r',
    read_and_parse (H := go_std)
                   (POST "application/x-www-form-urlencoded; charset=UTF-8"
                         "b=2&a=1")
    = Ok (r', None)
    /\ exists srv' σ' record,
         ServeHTTP (H := go_std) server_A (SinkAt 0)
                   (POST "application/x-www-form-urlencoded; charset=UTF-8"
                         "b=2&a=1")
                   client_recorder
         = Ok (srv', σ')
         /\ records srv' = records server_A ++ [record]
         /\ Request record = Some r'
         /\ PostForm r' = Some ∅.
Proof.
  eexists. split; [vm_compute; reflexivity|].
  apply (other_content_type_gives_no_post_form (H := go_std)).
  - vm_compute. discriminate.
  - reflexivity.
  - vm_compute. reflexivity.
  - repeat constructor.
  - repeat constructor; unfold valid_status; cbn; lia.
Defined.

Lemma Header_reaches_the_first_target_only_witness :
  exists σ',
    bind (ResponseWriter_Header
            (newMultiTargetHTTPResponseWriter (map SinkAt [1; 0]%nat)))
         (fun h => Header_update h
                     (fun m => Header.Set_ m "Content-Type" "text/plain"))
         failing_client
    = Ok (tt, σ')
    /\ trace σ' = trace failing_client ++ [(1%nat, CallHeader)]
    /\ frame [1%nat] failing_client σ'
    /\ forall s, sinks failing_client !! 1%nat = Some s ->
                 sinks σ' !! 1%nat
                 = Some (with_headers
                           s (Header.Set_ (sink_headers s) "Content-Type"
                                          "text/plain")).
Proof.
  apply (Header_reaches_the_first_target_only [1; 0]%nat).
  repeat constructor.
Defined.

Lemma handleInternalError_second_listing_on_recorder_witness :
  exists σ' rw',
    handleInternalError_second_listing (H := go_std) server_A (SinkAt 0)
                                       blank_record PWNED client_recorder
    = Ok (mkHTTPTestServer
            (responses server_A)
            (records server_A
               ++ [mkServerRecord (Request blank_record) (Response blank_record)
                                  (RequestBody blank_record) (Some PWNED)]),
          σ')
    /\ sinks σ' !! 0%nat = Some (RecorderSink rw')
    /\ frame [0%nat] client_recorder σ'
    /\ trace σ'
       = trace client_recorder
         ++ [(0%nat, CallWriteHeader 500);
             (0%nat, CallWrite (bytes_of_string (Error PWNED)))]
    /\ HeaderMap rw' = HeaderMap NewRecorder
    /\ RespBody (Result rw') = [] ++ bytes_of_string (Error PWNED)
    /\ (wroteHeader NewRecorder = false ->
        StatusCode (Result rw') = 500
        /\ RespHeader (Result rw') = HeaderMap NewRecorder).
Proof.
  apply (handleInternalError_second_listing_on_recorder (H := go_std)).
  - reflexivity.
  - reflexivity.
Defined.

(** ** A write that reaches every target *)

Section WriteRecorders.
Context `{GoStdlib}.



End WriteRecorders.


(** ** The calls of the handler, in order *)

Section HandlerCalls.
Context `{GoStdlib}.


End HandlerCalls.


(** The calls of the run above: the header of the response A, its
    status, its body, and the error response after the failed write to
    the client. *)
Example ServeHTTP_calls_in_order_run :
  served_calls 2 1 response_A
               (Some (Errorf_w write_failure_prefix PWNED))
  = [(2%nat, CallHeader); (1%nat, CallHeader);
     (2%nat, CallWriteHeader 200); (1%nat, CallWriteHeader 200);
     (2%nat, CallWrite (bytes_of_string "{x:1}"));
     (1%nat, CallWrite (bytes_of_string "{x:1}"));
     (2%nat, CallHeader);
     (2%nat, CallWriteHeader 500); (1%nat, CallWriteHeader 500);
     (2%nat, CallWrite
               (bytes_of_string
                  "test server failed to write the predefined response: PWNED"));
     (1%nat, CallWrite
               (bytes_of_string
                  "test server failed to write the predefined response: PWNED"))].
Proof. reflexivity. Qed.
